(** * rail-visualizer: the frame timeline of [src/main.py]

    A shallow embedding of the classes [City], [Connection], [RailNetwork]
    and [RailNetworkVisualizer], followed by the properties of the frame
    schedule, the simulated clock, coordinate normalisation and the derived
    graph.

    Numeric model.  Python [int] is [Z] (frame indices, frame counts, the
    duration of the video in seconds); [//] is [Z.div] (both floor).  Python
    [float] is a rational number ([Q]).  Where a float decides an integer,
    that is in the stop durations of [calculate_frames_and_stops] and in
    the [int(... * 10)] of [update], every operation rounds its exact
    result to 53 significant bits, ties to even, as binary64 does
    ([Py.round53]); the exponent range of binary64 (overflow, subnormal
    numbers) is not modelled.  The lemma [round53_nearest] shows that this
    is rounding to nearest, and the example [round53_machine] compares it
    with the floats of the machine.  The continuous quantities
    (coordinates, marker positions, the clock) are left exact, and
    equalities between them are stated with [==].  A [datetime] is the
    number of hours since midnight of its day of origin, so
    [timedelta(hours=h)] adds [h] and [timedelta(minutes=m)] adds [m / 60];
    the microsecond resolution of [datetime] is not modelled.

    Effects.  Exceptions are the [Raise] results of an error monad.  The
    drawing calls of [update] ([ax.clear], [imshow], [nx.draw], [ax.text])
    are omitted together with the exceptions they can raise; what is
    modelled of a frame is the schedule loop: the marker handed to
    [ax.plot], returned by [update] next to the new object state, and the
    exceptions of the loop itself. *)

From Stdlib Require Import ZArith QArith Qround Qpower Qabs Lqa Lia List.
From Stdlib Require Uint63 PrimFloat FloatOps SpecFloat.
From stdpp Require Import gmap strings list fin_maps.

Open Scope Q_scope.

Set Warnings "-clear-no-such-hyp".

(** ** Exceptions *)

Inductive exn : Type :=
  | ZeroDivisionError
  | KeyError (key : string)
  | IndexError.

Inductive result (A : Type) : Type :=
  | Ok (a : A)
  | Raise (e : exn).

Arguments Ok {A} a.
Arguments Raise {A} e.

#[global] Instance result_ret : MRet result := fun A a => Ok a.
#[global] Instance result_bind : MBind result := fun A B f m =>
  match m with
  | Ok a => f a
  | Raise e => Raise e
  end.

(** ** Python primitives *)

Module Py.

(** [a / b] on numbers. *)
Definition truediv (a b : Q) : result Q :=
  if Qeq_bool b 0 then Raise ZeroDivisionError else Ok (a / b).

(** [a // b] on ints. *)
Definition floordiv (a b : Z) : result Z :=
  if (b =? 0)%Z then Raise ZeroDivisionError else Ok (a / b)%Z.

(** [int(x)] on a float: the fractional part is dropped. *)
Definition int (x : Q) : Z := Z.quot (Qnum x) (Z.pos (Qden x)).

(** The integer nearest to [x], the even one of the two at a tie. *)
Definition nearest_even (x : Q) : Z :=
  let fl := Qfloor x in
  match Qcompare (x - inject_Z fl) (1 # 2) with
  | Lt => fl
  | Gt => (fl + 1)%Z
  | Eq => if Z.even fl then fl else (fl + 1)%Z
  end.

Definition pow2 (e : Z) : Q := Qpower 2 e.

(** Rounding of a positive number to 53 significant bits: [e] is the
    exponent at which [x / 2 ^ e] lies in [[2 ^ 52, 2 ^ 53)]. *)
Definition round53_pos (x : Q) : Q :=
  let e0 := (Z.log2 (Qnum x) - Z.log2 (Z.pos (Qden x)) - 52)%Z in
  let e := if Qle_bool (inject_Z (2 ^ 52)) (x * pow2 (- e0)) then e0 else (e0 - 1)%Z in
  inject_Z (nearest_even (x * pow2 (- e))) * pow2 e.

(** The float nearest to [x]: what a binary64 operation whose exact result
    is [x] returns. *)
Definition round53 (x : Q) : Q :=
  match Qnum x with
  | Z0 => 0
  | Zpos _ => round53_pos x
  | Zneg _ => - round53_pos (- x)
  end.

(** [float(x)]: the float of a JSON number, of a literal or of an int. *)
Definition float (x : Q) : Q := round53 x.

(** [a + b] and [a * b] on floats. *)
Definition fadd (a b : Q) : Q := round53 (a + b).
Definition fmul (a b : Q) : Q := round53 (a * b).

(** [a / n] on a float and an int: the int is converted first. *)
Definition ftruediv (a : Q) (n : Z) : result Q :=
  if (n =? 0)%Z then Raise ZeroDivisionError
  else Ok (round53 (a / float (inject_Z n))).

(** [sum(l)] on floats: the additions from the left, starting at [0], as
    CPython makes them up to version 3.11; later versions add a correction
    for the rounding errors of the additions at the end. *)
Definition fsum (l : list Q) : Q := fold_left fadd l 0.

(** [d[k]] on a dict with string keys. *)
Definition getitem {A} (d : gmap string A) (k : string) : result A :=
  match d !! k with
  | Some v => Ok v
  | None => Raise (KeyError k)
  end.

(** [l[i]] on a list, for an index that is not negative. *)
Definition index {A} (l : list A) (i : nat) : result A :=
  match l !! i with
  | Some v => Ok v
  | None => Raise IndexError
  end.

(** [[f(x) for x in l]] where [f] may raise. *)
Fixpoint comprehension {A B} (f : A -> result B) (l : list A) : result (list B) :=
  match l with
  | [] => Ok []
  | x :: l' => y ← f x; ys ← comprehension f l'; Ok (y :: ys)
  end.

End Py.

(** ** class City *)

Module City.

Record t : Type := mk {
  name : string;
  coordinates : Q * Q
}.

(** The default arguments of [normalize_coordinates]. *)
Definition default_min_x : Q := 8.
Definition default_max_x : Q := 13.
Definition default_min_y : Q := 54.
Definition default_max_y : Q := 58.

Definition normalize_coordinates (self : t) (min_x max_x min_y max_y : Q)
  : result (Q * Q) :=
  qx ← Py.truediv (fst (coordinates self) - min_x) (max_x - min_x);
  let norm_x := qx * 2 - 1 in
  qy ← Py.truediv (snd (coordinates self) - min_y) (max_y - min_y);
  let norm_y := qy * 2 - 1 in
  Ok (norm_x, norm_y).

(** [city.normalize_coordinates()], as [__init__] of the visualizer calls it. *)
Definition normalize_coordinates_default (self : t) : result (Q * Q) :=
  normalize_coordinates self default_min_x default_max_x default_min_y default_max_y.

End City.

(** ** class Connection *)

Module Connection.

Record t : Type := mk {
  start_city : string;
  end_city : string;
  duration : Q
}.

End Connection.

(** ** networkx.Graph

    The part of the library's simple undirected graph that [build_graph]
    uses: the adjacency dict of dicts, whose keys are the nodes, with the
    [weight] attribute of an edge stored under both of its endpoints. *)

Module nx.

Record Graph : Type := mkGraph {
  adj : gmap string (gmap string Q)
}.

Definition empty : Graph := mkGraph ∅.

Definition add_node (n : string) (g : Graph) : Graph :=
  match adj g !! n with
  | Some _ => g
  | None => mkGraph (<[n := ∅]> (adj g))
  end.

Definition add_edge (u v : string) (weight : Q) (g : Graph) : Graph :=
  let g := add_node v (add_node u g) in
  let a := <[u := <[v := weight]> (default ∅ (adj g !! u))]> (adj g) in
  mkGraph (<[v := <[u := weight]> (default ∅ (a !! v))]> a).

Definition nodes (g : Graph) : gset string := dom (adj g).

Definition number_of_nodes (g : Graph) : nat := size (nodes g).

Definition has_edge (g : Graph) (u v : string) : bool :=
  match adj g !! u with
  | Some nbrs => bool_decide (is_Some (nbrs !! v))
  | None => false
  end.

End nx.

(** ** class RailNetwork *)

(** The parsed content of the JSON file read by [load_from_json]. *)
Record city_data : Type := mk_city_data {
  cd_name : string;
  cd_coordinates : Q * Q
}.

Record connection_data : Type := mk_connection_data {
  cd_start_city : string;
  cd_end_city : string;
  cd_duration : Q
}.

Record json_data : Type := mk_json_data {
  data_cities : list city_data;
  data_connections : list connection_data
}.

Module RailNetwork.

Record t : Type := mk {
  cities : gmap string City.t;
  connections : list Connection.t;
  graph : nx.Graph
}.

Definition init : t := mk ∅ [] nx.empty.

Definition add_city (city : City.t) (self : t) : t :=
  mk (<[City.name city := city]> (cities self)) (connections self) (graph self).

Definition add_connection (connection : Connection.t) (self : t) : t :=
  mk (cities self) (connections self ++ [connection]) (graph self).

(** [self.cities.values()]. *)
Definition cities_values (self : t) : list City.t := (map_to_list (cities self)).*2.

Definition build_graph (self : t) : t :=
  let g := foldl (fun g city => nx.add_node (City.name city) g)
             (graph self) (cities_values self) in
  let g := foldl (fun g connection =>
                    nx.add_edge (Connection.start_city connection)
                      (Connection.end_city connection)
                      (Connection.duration connection) g)
             g (connections self) in
  mk (cities self) (connections self) g.

Definition load_from_json (data : json_data) (self : t) : t :=
  let self := foldl (fun self cd =>
                       add_city (City.mk (cd_name cd) (cd_coordinates cd)) self)
                self (data_cities data) in
  foldl (fun self cd =>
           add_connection
             (Connection.mk (cd_start_city cd) (cd_end_city cd) (cd_duration cd)) self)
    self (data_connections data).

(** The networks that the methods of the class build. *)
Inductive built : t -> Prop :=
  | built_init : built init
  | built_add_city city self : built self -> built (add_city city self)
  | built_add_connection connection self :
      built self -> built (add_connection connection self)
  | built_build_graph self : built self -> built (build_graph self)
  | built_load_from_json data self : built self -> built (load_from_json data self).

(** A city of that name is among the cities of the network.  In a network
    that the methods above have built this is the same as the name being a
    key of [cities]. *)
Definition declared (self : t) (n : string) : Prop :=
  Exists (fun city => City.name city = n) (cities_values self).

(** Both endpoints of every connection are declared. *)
Definition endpoints_declared (self : t) : Prop :=
  Forall (fun c => declared self (Connection.start_city c)
                   /\ declared self (Connection.end_city c))
    (connections self).

End RailNetwork.

(** ** class RailNetworkVisualizer *)

(** [datetime.strptime("06:00", "%H:%M")], in hours. *)
Definition six_o_clock : Q := 6.

(** [timedelta(hours=h)] and [timedelta(minutes=m)], in hours and exact:
    the rounding of each increment to whole microseconds is left out. *)
Definition timedelta_hours (h : Q) : Q := h.
Definition timedelta_minutes (m : Q) : Q := m / 60.

Module RailNetworkVisualizer.

Record t : Type := mk {
  rail_network : RailNetwork.t;
  show_live : bool;
  duration : Z;
  pos : gmap string (Q * Q);
  start_time : Q;
  current_time : Q;
  total_frames : Z;
  stop_durations : list Q
}.

Definition set_current_time (self : t) (v : Q) : t :=
  mk (rail_network self) (show_live self) (duration self) (pos self)
     (start_time self) v (total_frames self) (stop_durations self).

Definition connections (self : t) : list Connection.t :=
  RailNetwork.connections (rail_network self).

(** [[connection.duration for connection in ...connections]]: the durations
    as the floats that the objects hold.  A duration written without a
    fraction is held as an int, and ints are added exactly; the float
    additions give the same sum as long as it is below [2 ^ 53]. *)
Definition durations (self : t) : list Q :=
  map (fun connection => Py.float (Connection.duration connection)) (connections self).

Definition calculate_frames_and_stops (self : t) : result t :=
  let total_travel_time := Py.fsum (durations self) in
  let total_stop_time := Py.fmul total_travel_time (Py.float (2 # 10)) in
  sd ← Py.ftruediv total_stop_time (Z.of_nat (length (connections self)));
  let stop_durations := repeat sd (length (connections self)) in
  let total_frames := (duration self * 10)%Z in
  Ok (mk (rail_network self) (show_live self) (duration self) (pos self)
         (start_time self) (current_time self) total_frames stop_durations).

(** [{city.name: city.normalize_coordinates() for city in ...values()}]. *)
Definition build_pos (rail_network : RailNetwork.t) : result (gmap string (Q * Q)) :=
  items ← Py.comprehension
            (fun city => p ← City.normalize_coordinates_default city;
                         Ok (City.name city, p))
            (RailNetwork.cities_values rail_network);
  Ok (foldl (fun d kv => <[kv.1 := kv.2]> d) ∅ items).

Definition init (rail_network : RailNetwork.t) (show_live : bool) (duration : Z)
  : result t :=
  pos ← build_pos rail_network;
  calculate_frames_and_stops
    (mk rail_network show_live duration pos six_o_clock six_o_clock 0 []).

(** The two frame counts that the loop of [update] computes for the
    connection at [idx]. *)
Definition travel_frames (self : t) : result Z :=
  Py.floordiv (total_frames self) (Z.of_nat (length (connections self))).

Definition stop_frames (self : t) (idx : nat) : result Z :=
  sd ← Py.index (stop_durations self) idx;
  Ok (Py.int (Py.fmul sd 10)).

(** The loop of [update], entered at the connection of index [idx] with
    the remaining connections [rest]; [None] for the marker means that
    [ax.plot] was not called.  The position of the marker and the increment
    of the clock are computed exactly. *)
Fixpoint update_loop (self : t) (frame : Z) (idx : nat) (cumulative_frames : Z)
    (rest : list Connection.t) : result (t * option (Q * Q)) :=
  match rest with
  | [] => Ok (self, None)
  | connection :: rest =>
    travel_frames ← travel_frames self;
    stop_frames ← stop_frames self idx;
    if ((cumulative_frames <=? frame) && (frame <? cumulative_frames + travel_frames))%Z
    then
      let i := (frame - cumulative_frames)%Z in
      '(x_start, y_start) ← Py.getitem (pos self) (Connection.start_city connection);
      '(x_end, y_end) ← Py.getitem (pos self) (Connection.end_city connection);
      dx ← Py.truediv ((x_end - x_start) * inject_Z i) (inject_Z travel_frames);
      let x := x_start + dx in
      dy ← Py.truediv ((y_end - y_start) * inject_Z i) (inject_Z travel_frames);
      let y := y_start + dy in
      r ← Py.truediv 1 (inject_Z travel_frames);
      Ok (set_current_time self
            (current_time self + timedelta_hours (Connection.duration connection * r)),
          Some (x, y))
    else if ((cumulative_frames + travel_frames <=? frame)
             && (frame <? cumulative_frames + travel_frames + stop_frames))%Z
    then
      '(x, y) ← Py.getitem (pos self) (Connection.end_city connection);
      sd ← Py.index (stop_durations self) idx;
      Ok (set_current_time self (current_time self + timedelta_minutes (sd / 10)),
          Some (x, y))
    else
      update_loop self frame (S idx) (cumulative_frames + (travel_frames + stop_frames))%Z rest
  end.

(** [update]: the loop over the connections.  The drawing calls before
    the loop and [ax.text] after it are omitted, so what is proved of
    [update] below is proved of the loop of the method, in a call whose
    drawing returns. *)
Definition update (self : t) (frame : Z) : result (t * option (Q * Q)) :=
  update_loop self frame 0 0%Z (connections self).

(** The value of [cumulative_frames] on entry to the iteration of index
    [k]: the sum of [travel_frames + stop_frames] over the connections
    before it. *)
Fixpoint cumulative_frames (self : t) (k : nat) : result Z :=
  match k with
  | O => Ok 0%Z
  | S k' =>
    c ← cumulative_frames self k';
    tf ← travel_frames self;
    sf ← stop_frames self k';
    Ok (c + (tf + sf))%Z
  end.

(** [range(n)]. *)
Definition range (n : Z) : list Z := map Z.of_nat (seq 0 (Z.to_nat n)).

(** Successive calls of [update] on the same object, as the animation
    makes them; the markers plotted are collected, and an exception ends
    the run. *)
Fixpoint render (self : t) (frames : list Z) : result (t * list (option (Q * Q))) :=
  match frames with
  | [] => Ok (self, [])
  | frame :: frames =>
    '(self, marker) ← update self frame;
    '(self, markers) ← render self frames;
    Ok (self, marker :: markers)
  end.

(** The values of [current_time] after each call of such a run, up to
    the first exception. *)
Fixpoint clock_trace (self : t) (frames : list Z) : list Q :=
  match frames with
  | [] => []
  | frame :: frames =>
    match update self frame with
    | Ok (self, _) => current_time self :: clock_trace self frames
    | Raise _ => []
    end
  end.

(** The frames for which the animation library calls [update] when
    [FuncAnimation(..., frames=n)] is saved: the first frame once for the
    initial draw, when there is one, then every index of [range(n)]. *)
Definition saved_frames (n : Z) : list Z :=
  match range n with
  | [] => []
  | frame :: _ => frame :: range n
  end.

(** [animate]: the graph of the network is built, then saving the
    animation calls [update] for the frames [saved_frames total_frames].
    The network is held by the visualizer only, so it is kept inside the
    object.  The background image, the drawing of the network, the
    encoding of the file and the live display, which the script switches
    off, are omitted. *)
Definition animate (self : t) : result (t * list (option (Q * Q))) :=
  let self :=
    mk (RailNetwork.build_graph (rail_network self)) (show_live self) (duration self)
       (pos self) (start_time self) (current_time self) (total_frames self)
       (stop_durations self) in
  render self (saved_frames (total_frames self)).

End RailNetworkVisualizer.

(** The statements at the end of the file: load the network, construct the
    visualizer with [show_live=False], animate. *)
Definition main (data : json_data) (duration : Z)
  : result (RailNetworkVisualizer.t * list (option (Q * Q))) :=
  let rail_network := RailNetwork.load_from_json data RailNetwork.init in
  visualizer ← RailNetworkVisualizer.init rail_network false duration;
  RailNetworkVisualizer.animate visualizer.

(** ** Notions used by the statements *)

(** Equality of points is equality of numbers on each axis. *)
Definition point_eq (p q : Q * Q) : Prop := fst p == fst q /\ snd p == snd q.

Infix "=p=" := point_eq (at level 70, no associativity).

(** The closed box with the given bounds. *)
Definition in_box (min_x max_x min_y max_y : Q) (p : Q * Q) : Prop :=
  min_x <= fst p <= max_x /\ min_y <= snd p <= max_y.

(** The inverse linear map the specification speaks of: it is not in the
    source, and is the map that sends [-1] to the lower bound and [1] to the
    upper bound of each axis. *)
Definition spec_inverse_map (min_x max_x min_y max_y : Q) (q : Q * Q) : Q * Q :=
  (min_x + (fst q + 1) / 2 * (max_x - min_x),
   min_y + (snd q + 1) / 2 * (max_y - min_y)).

(** What [normalize_coordinates] returns with its default arguments. *)
Definition normalized (city : City.t) : Q * Q :=
  ((fst (City.coordinates city) - City.default_min_x)
     / (City.default_max_x - City.default_min_x) * 2 - 1,
   (snd (City.coordinates city) - City.default_min_y)
     / (City.default_max_y - City.default_min_y) * 2 - 1).

(** [add_city] files every city under its own name. *)
Definition keys_are_names (cities : gmap string City.t) : Prop :=
  forall k city, cities !! k = Some city -> City.name city = k.

(** The frame counts that the loop of [update] computes, one per
    connection, in the order of the connections. *)
Definition travel_frame_counts (self : RailNetworkVisualizer.t) : result (list Z) :=
  Py.comprehension (fun _ : nat => RailNetworkVisualizer.travel_frames self)
    (seq 0 (length (RailNetworkVisualizer.connections self))).


Definition total (counts : list Z) : Z := fold_right Z.add 0%Z counts.

(** No element of the list is above its successor. *)
Definition nondecreasing (l : list Q) : Prop :=
  forall (i : nat) (x y : Q), l !! i = Some x -> l !! S i = Some y -> x <= y.

(** The adjacency dict of a node of the graph, empty for what is not a
    node. *)
Definition nbrs (g : nx.Graph) (u : string) : gmap string Q :=
  default ∅ (nx.adj g !! u).

(** The names declared by the cities of a JSON description. *)
Definition declared_names (data : json_data) : list string :=
  map cd_name (data_cities data).

(** A connection of the description joins [u] and [v], in either direction. *)
Definition joins (cd : connection_data) (u v : string) : Prop :=
  (cd_start_city cd = u /\ cd_end_city cd = v)
  \/ (cd_start_city cd = v /\ cd_end_city cd = u).

(** The body of the second loop of [build_graph]. *)
Definition add_connection_edge (g : nx.Graph) (connection : Connection.t) : nx.Graph :=
  nx.add_edge (Connection.start_city connection) (Connection.end_city connection)
    (Connection.duration connection) g.

(** The connection that [load_from_json] makes of an entry of the description. *)
Definition connection_of (cd : connection_data) : Connection.t :=
  Connection.mk (cd_start_city cd) (cd_end_city cd) (cd_duration cd).



(** A connection runs between [u] and [v], in either direction. *)
Definition connects (c : Connection.t) (u v : string) : Prop :=
  (Connection.start_city c = u /\ Connection.end_city c = v)
  \/ (Connection.start_city c = v /\ Connection.end_city c = u).

#[global] Instance connects_dec (c : Connection.t) (u v : string) :
  Decision (connects c u v).
Proof. unfold connects. apply _. Defined.

(** The [weight] attribute stored for the edge from [u] to [v], if there
    is one. *)
Definition edge_weight (g : nx.Graph) (u v : string) : option Q := nbrs g u !! v.

(** The duration of the last connection of the list that runs between
    [u] and [v]. *)
Fixpoint last_weight (l : list Connection.t) (u v : string) : option Q :=
  match l with
  | [] => None
  | c :: l' =>
    match last_weight l' u v with
    | Some w => Some w
    | None => if decide (connects c u v) then Some (Connection.duration c) else None
    end
  end.

(** ** The floats of the machine *)

Module Machine.

Import PrimFloat.

(** The number that a binary64 float of the machine stands for, [None] for
    an infinity and for NaN. *)
Definition value (f : float) : option Q :=
  match FloatOps.Prim2SF f with
  | SpecFloat.S754_zero _ => Some 0
  | SpecFloat.S754_finite s m e =>
    Some ((if s then - (1) else 1) * inject_Z (Z.pos m) * Py.pow2 e)
  | _ => None
  end.

(** Literals of the source and of the instances below, in hexadecimal. *)
Definition zero_point_two : float := 0x1.999999999999ap-3%float.
Definition zero_point_three : float := 0x1.3333333333333p-2%float.
Definition zero_point_seven : float := 0x1.6666666666666p-1%float.
Definition zero_point_five : float := 0x1p-1%float.
Definition twenty_seven : float := 0x1.bp+4%float.

(** [float(n)] for a small number of connections. *)
Definition of_nat (n : nat) : float := of_uint63 (Uint63.of_Z (Z.of_nat n)).

(** [sum(durations) * 0.2 / len(durations) * 10] on the machine: what
    [update] hands to [int]. *)
Definition ten_stop_durations (durations : list float) : float :=
  (fold_left add durations 0 * zero_point_two / of_nat (length durations) * 10)%float.

End Machine.

(** ** Networks used as concrete instances *)

(** Two cities at opposite corners of the default box and one connection
    of one hour, as in the scenario of the specification. *)
Definition two_city_data : json_data :=
  mk_json_data
    [mk_city_data "A" (8, 54); mk_city_data "B" (13, 58)]
    [mk_connection_data "A" "B" 1].

(** Three cities and three connections of 1, 1 and 2 hours. *)
Definition triangle_data : json_data :=
  mk_json_data
    [mk_city_data "A" (8, 54); mk_city_data "B" (13, 58); mk_city_data "C" (8, 58)]
    [mk_connection_data "A" "B" 1; mk_connection_data "B" "C" 1;
     mk_connection_data "C" "A" 2].


(** Three connections of 27 hours: ten times their stop duration is the
    float 53.99999999999999, where exact arithmetic gives 54. *)
Definition long_data : json_data :=
  mk_json_data
    [mk_city_data "A" (8, 54); mk_city_data "B" (13, 58); mk_city_data "C" (8, 58)]
    [mk_connection_data "A" "B" 27; mk_connection_data "B" "C" 27;
     mk_connection_data "C" "A" 27].

(** Durations of 0.3 and 0.7 hours, which are not floats themselves. *)
Definition decimal_data : json_data :=
  mk_json_data
    [mk_city_data "A" (8, 54); mk_city_data "B" (13, 58); mk_city_data "C" (8, 58)]
    [mk_connection_data "A" "B" (3 # 10); mk_connection_data "B" "C" (7 # 10)].

(** A connection to a city that is not declared. *)
Definition dangling_data : json_data :=
  mk_json_data
    [mk_city_data "A" (8, 54)]
    [mk_connection_data "A" "B" 1].

(** A city declared twice and a pair of cities connected twice. *)
Definition repeated_data : json_data :=
  mk_json_data
    [mk_city_data "A" (8, 54); mk_city_data "B" (13, 58); mk_city_data "A" (10, 56)]
    [mk_connection_data "A" "B" 1; mk_connection_data "B" "A" 3].

Definition load (data : json_data) : RailNetwork.t :=
  RailNetwork.load_from_json data RailNetwork.init.

(** The stop duration that [calculate_frames_and_stops] gives every
    connection of [net]: a fifth of the sum of the durations, divided by
    the number of connections, each operation on floats. *)
Definition stop_duration_of (net : RailNetwork.t) : Q :=
  Py.round53
    (Py.fmul
       (Py.fsum (map (fun connection => Py.float (Connection.duration connection))
                     (RailNetwork.connections net)))
       (Py.float (2 # 10))
     / Py.float (inject_Z (Z.of_nat (length (RailNetwork.connections net))))).

(** The object that the constructor returns for the network loaded from
    [data], when it returns. *)
Definition visualizer_for (data : json_data) (duration : Z) : RailNetworkVisualizer.t :=
  let net := load data in
  RailNetworkVisualizer.mk net false duration
    (normalized <$> RailNetwork.cities net)
    six_o_clock six_o_clock (duration * 10)%Z
    (repeat (stop_duration_of net) (length (RailNetwork.connections net))).

(** * Properties *)

(** ** The error monad and the Python primitives *)

Lemma bind_Ok {A B} (m : result A) (f : A -> result B) (b : B) :
  m ≫= f = Ok b -> exists a, m = Ok a /\ f a = Ok b.
Proof. destruct m as [a|e]; simpl; [eauto | discriminate]. Qed.

Ltac inv_bind H :=
  let a := fresh "a" in
  let Ha := fresh "E" in
  apply bind_Ok in H; destruct H as (a & Ha & H).

Lemma truediv_Ok (a b : Q) : ~ b == 0 -> Py.truediv a b = Ok (a / b).
Proof.
  intros Hb. unfold Py.truediv.
  destruct (Qeq_bool b 0) eqn:E; [|reflexivity].
  apply Qeq_bool_iff in E. contradiction.
Qed.

Lemma truediv_inv (a b q : Q) : Py.truediv a b = Ok q -> ~ b == 0 /\ q = a / b.
Proof.
  unfold Py.truediv. destruct (Qeq_bool b 0) eqn:E; [discriminate|].
  intros [= <-]. split; [|reflexivity].
  intros Hb. apply Qeq_bool_iff in Hb. congruence.
Qed.

Lemma inject_Z_nonzero (z : Z) : z <> 0%Z -> ~ inject_Z z == 0.
Proof. intros Hz H. apply Hz. unfold Qeq in H. simpl in H. lia. Qed.

Lemma floordiv_Ok (a b : Z) : b <> 0%Z -> Py.floordiv a b = Ok (a / b)%Z.
Proof. intros Hb. unfold Py.floordiv. destruct (Z.eqb_spec b 0); [contradiction|reflexivity]. Qed.



(** ** Rounding to a float *)

(** Rounding keeps the sign. *)
Lemma nearest_even_nonneg (x : Q) : 0 <= x -> (0 <= Py.nearest_even x)%Z.
Proof.
  intros Hx. unfold Py.nearest_even.
  assert (H0 : (0 <= Qfloor x)%Z).
  { change 0%Z with (Qfloor 0). apply Qfloor_resp_le. exact Hx. }
  destruct (Qcompare _ _); [destruct (Z.even _)|..]; lia.
Qed.

Lemma pow2_pos (e : Z) : 0 < Py.pow2 e.
Proof. apply Qpower_0_lt. reflexivity. Qed.

Lemma round53_pos_nonneg (x : Q) : 0 <= x -> 0 <= Py.round53_pos x.
Proof.
  intros Hx. unfold Py.round53_pos. cbv zeta.
  generalize (if Qle_bool (inject_Z (2 ^ 52))
                   (x * Py.pow2 (- (Z.log2 (Qnum x) - Z.log2 (Z.pos (Qden x)) - 52)))
              then (Z.log2 (Qnum x) - Z.log2 (Z.pos (Qden x)) - 52)%Z
              else (Z.log2 (Qnum x) - Z.log2 (Z.pos (Qden x)) - 52 - 1)%Z).
  intros e. pose proof (pow2_pos e) as He. pose proof (pow2_pos (- e)) as He'.
  apply Qmult_le_0_compat; [|lra].
  change 0 with (inject_Z 0). rewrite <- Zle_Qle.
  apply nearest_even_nonneg, Qmult_le_0_compat; lra.
Qed.

Lemma round53_nonneg (x : Q) : 0 <= x -> 0 <= Py.round53 x.
Proof.
  intros Hx. unfold Py.round53. destruct x as [[|p|p] d]; simpl Qnum; cbv iota.
  - lra.
  - apply round53_pos_nonneg, Hx.
  - exfalso. unfold Qle in Hx. simpl in Hx. lia.
Qed.

Lemma pow2_plus (a b : Z) : Py.pow2 (a + b) == Py.pow2 a * Py.pow2 b.
Proof. apply Qpower_plus. discriminate. Qed.

Lemma pow2_opp (a : Z) : Py.pow2 (- a) == / Py.pow2 a.
Proof. apply Qpower_opp. Qed.

Lemma pow2_nonneg (a : Z) : (0 <= a)%Z -> Py.pow2 a == inject_Z (2 ^ a).
Proof. intros H. unfold Py.pow2. rewrite Zpower_Qpower by exact H. reflexivity. Qed.

Lemma nearest_even_close (x : Q) :
  inject_Z (Py.nearest_even x) - (1 # 2) <= x <= inject_Z (Py.nearest_even x) + (1 # 2).
Proof.
  unfold Py.nearest_even.
  pose proof (Qfloor_le x) as Hlo. pose proof (Qlt_floor x) as Hhi.
  rewrite inject_Z_plus in Hhi. change (inject_Z 1) with 1 in Hhi.
  destruct (Qcompare (x - inject_Z (Qfloor x)) (1 # 2)) eqn:E.
  - apply Qeq_alt in E.
    destruct (Z.even (Qfloor x)); [|rewrite inject_Z_plus; change (inject_Z 1) with 1];
      split; lra.
  - apply Qlt_alt in E. split; lra.
  - apply Qgt_alt in E. rewrite inject_Z_plus. change (inject_Z 1) with 1.
    split; lra.
Qed.

(** The exponent that [round53_pos] chooses puts the number between
    [2 ^ 52] and [2 ^ 53]. *)
Lemma mantissa_range (x : Q) :
  0 < x ->
  exists e : Z,
    Py.round53_pos x = inject_Z (Py.nearest_even (x * Py.pow2 (- e))) * Py.pow2 e
    /\ inject_Z (2 ^ 52) <= x * Py.pow2 (- e) < inject_Z (2 ^ 53).
Proof.
  intros Hx. unfold Py.round53_pos. cbv zeta.
  set (a := Z.log2 (Qnum x)). set (b := Z.log2 (Z.pos (Qden x))).
  set (e0 := (a - b - 52)%Z).
  assert (Hn : (0 < Qnum x)%Z).
  { unfold Qlt in Hx. simpl in Hx. lia. }
  destruct (Z.log2_spec (Qnum x) Hn) as [Ha1 Ha2]. fold a in Ha1, Ha2.
  destruct (Z.log2_spec (Z.pos (Qden x)) ltac:(lia)) as [Hb1 Hb2]. fold b in Hb1, Hb2.
  assert (Ha0 : (0 <= a)%Z) by apply Z.log2_nonneg.
  assert (Hb0 : (0 <= b)%Z) by apply Z.log2_nonneg.
  assert (Hy0 : inject_Z (2 ^ 51) < x * Py.pow2 (- e0) < inject_Z (2 ^ 53)).
  { replace (- e0)%Z with (52 + b + - a)%Z by (unfold e0; lia).
    rewrite !pow2_plus, pow2_opp, (pow2_nonneg a Ha0), (pow2_nonneg b Hb0).
    rewrite Z.pow_succ_r in Ha2, Hb2 by lia.
    assert (HA : 0 < inject_Z (2 ^ a)).
    { rewrite <- (pow2_nonneg a Ha0). apply pow2_pos. }
    assert (HB : 0 < inject_Z (2 ^ b)).
    { rewrite <- (pow2_nonneg b Hb0). apply pow2_pos. }
    assert (Hx' : x == inject_Z (Qnum x) / inject_Z (Z.pos (Qden x))).
    { destruct x as [n d]. simpl. rewrite Qmake_Qdiv. reflexivity. }
    assert (HD : 0 < inject_Z (Z.pos (Qden x))) by (unfold Qlt; simpl; lia).
    assert (Hu1 : inject_Z (2 ^ a) <= inject_Z (Qnum x)) by (rewrite <- Zle_Qle; exact Ha1).
    assert (Hu2 : inject_Z (Qnum x) < 2 * inject_Z (2 ^ a)).
    { change 2 with (inject_Z 2). rewrite <- inject_Z_mult, <- Zlt_Qlt. exact Ha2. }
    assert (Hv1 : inject_Z (2 ^ b) <= inject_Z (Z.pos (Qden x))) by (rewrite <- Zle_Qle; exact Hb1).
    assert (Hv2 : inject_Z (Z.pos (Qden x)) < 2 * inject_Z (2 ^ b)).
    { change 2 with (inject_Z 2). rewrite <- inject_Z_mult, <- Zlt_Qlt. exact Hb2. }
    assert (Hp : Py.pow2 52 == inject_Z (2 ^ 52)) by (apply pow2_nonneg; lia).
    rewrite Hp, Hx'.
    set (N := inject_Z (Qnum x)) in *. set (Dq := inject_Z (Z.pos (Qden x))) in *.
    set (A := inject_Z (2 ^ a)) in *. set (B := inject_Z (2 ^ b)) in *.
    clearbody N Dq A B.
    assert (E : N / Dq * (inject_Z (2 ^ 52) * B * / A)
                == inject_Z (2 ^ 52) * ((N / A) * (B / Dq))) by (field; split; lra).
    rewrite E.
    assert (H1 : 1 <= N / A) by (apply Qle_shift_div_l; lra).
    assert (H2 : N / A < 2) by (apply Qlt_shift_div_r; lra).
    assert (H3 : (1 # 2) < B / Dq) by (apply Qlt_shift_div_l; lra).
    assert (H4 : B / Dq <= 1) by (apply Qle_shift_div_r; lra).
    set (u := N / A) in *. set (v := B / Dq) in *. clearbody u v.
    assert (E51 : inject_Z (2 ^ 52) == 2 * inject_Z (2 ^ 51)) by reflexivity.
    assert (E53 : inject_Z (2 ^ 53) == 4 * inject_Z (2 ^ 51)) by reflexivity.
    assert (P51 : 0 < inject_Z (2 ^ 51)) by reflexivity.
    rewrite E51, E53. set (p := inject_Z (2 ^ 51)) in *. clearbody p.
    assert (Hw1 : (1 # 2) < u * v) by nra.
    assert (Hw2 : u * v < 2) by nra.
    set (w := u * v) in *. clearbody w.
    split; nra. }
  destruct (Qle_bool (inject_Z (2 ^ 52)) (x * Py.pow2 (- e0))) eqn:E.
  - exists e0. split; [reflexivity|]. apply Qle_bool_iff in E. split; [exact E|apply Hy0].
  - exists (e0 - 1)%Z. split; [reflexivity|].
    assert (E' : x * Py.pow2 (- e0) < inject_Z (2 ^ 52)).
    { apply Qnot_le_lt. intros H. apply Qle_bool_iff in H. congruence. }
    replace (- (e0 - 1))%Z with (- e0 + 1)%Z by lia.
    rewrite pow2_plus.
    assert (H2 : Py.pow2 1 == 2) by reflexivity. rewrite H2.
    destruct Hy0 as [Hlo Hhi].
    assert (E1 : x * (Py.pow2 (- e0) * 2) == 2 * (x * Py.pow2 (- e0))) by ring.
    rewrite E1. set (y := x * Py.pow2 (- e0)) in *. clearbody y.
    assert (E51 : inject_Z (2 ^ 52) == 2 * inject_Z (2 ^ 51)) by reflexivity.
    assert (E53 : inject_Z (2 ^ 53) == 4 * inject_Z (2 ^ 51)) by reflexivity.
    rewrite E51 in E' |- *. rewrite E53 in Hhi |- *.
    set (p := inject_Z (2 ^ 51)) in *. clearbody p.
    split; lra.
Qed.

(** [Py.round53] rounds to nearest: the result is [m * 2 ^ e] with [m] an
    integer of 53 bits (or [2 ^ 53]), [e] the exponent at which [x] has 53
    bits before the point, and it lies within half a unit of the last
    place of [x]. *)
Lemma round53_nearest (x : Q) :
  0 < x ->
  exists (m e : Z),
    Py.round53 x = inject_Z m * Py.pow2 e
    /\ (2 ^ 52 <= m <= 2 ^ 53)%Z
    /\ inject_Z (2 ^ 52) * Py.pow2 e <= x < inject_Z (2 ^ 53) * Py.pow2 e
    /\ Qabs (x - Py.round53 x) <= (1 # 2) * Py.pow2 e.
Proof.
  intros Hx.
  assert (Hr : Py.round53 x = Py.round53_pos x).
  { unfold Py.round53. destruct x as [[|p|p] d]; try reflexivity;
      unfold Qlt in Hx; simpl in Hx; lia. }
  destruct (mantissa_range x Hx) as (e & He & Hlo & Hhi).
  pose proof (nearest_even_close (x * Py.pow2 (- e))) as [Hc1 Hc2].
  exists (Py.nearest_even (x * Py.pow2 (- e))), e. rewrite Hr, He.
  pose proof (pow2_pos e) as Hp.
  assert (Hxy : x == (x * Py.pow2 (- e)) * Py.pow2 e).
  { rewrite pow2_opp. field. lra. }
  set (y := x * Py.pow2 (- e)) in *.
  set (m := Py.nearest_even y) in *.
  set (P := Py.pow2 e) in *.
  assert (E53 : inject_Z (2 ^ 53) == 2 * inject_Z (2 ^ 52)) by reflexivity.
  split; [reflexivity|]. split; [|split].
  - assert (H1 : inject_Z (2 ^ 52) < inject_Z (m + 1)).
    { rewrite inject_Z_plus. change (inject_Z 1) with 1.
      set (p := inject_Z (2 ^ 52)) in *. clearbody p y m P. lra. }
    assert (H2 : inject_Z m < inject_Z (2 ^ 53 + 1)).
    { rewrite inject_Z_plus. change (inject_Z 1) with 1.
      set (p := inject_Z (2 ^ 53)) in *. clearbody p y m P. lra. }
    rewrite <- Zlt_Qlt in H1, H2. lia.
  - clearbody y m P. rewrite Hxy.
    set (p := inject_Z (2 ^ 52)) in *. set (q := inject_Z (2 ^ 53)) in *.
    clearbody p q. split; nra.
  - apply Qabs_Qle_condition.
    clearbody y m P.
    assert (E : x - inject_Z m * P == (y - inject_Z m) * P) by (rewrite Hxy; ring).
    rewrite E. split; nra.
Qed.

Lemma fmul_nonneg (a b : Q) : 0 <= a -> 0 <= b -> 0 <= Py.fmul a b.
Proof. intros Ha Hb. apply round53_nonneg, Qmult_le_0_compat; assumption. Qed.

Lemma fold_left_fadd_nonneg (l : list Q) (a : Q) :
  0 <= a -> Forall (fun x => 0 <= x) l -> 0 <= fold_left Py.fadd l a.
Proof.
  revert a. induction l as [|x l IH]; intros a Ha Hl; simpl; [exact Ha|].
  inversion Hl; subst. apply IH; [apply round53_nonneg; lra|assumption].
Qed.

Lemma fsum_nonneg (l : list Q) : Forall (fun x => 0 <= x) l -> 0 <= Py.fsum l.
Proof. apply fold_left_fadd_nonneg. lra. Qed.

(** The model of rounding and the floats of the machine agree on the
    literal 0.2 and on the computations that give 53, 1 and 0 stop frames
    where exact arithmetic gives 54, 0 and 1: three durations of 27,
    durations of 0.3 and 0.7, and 43 durations of 0.5. *)
Example round53_machine :
  option_map Qred (Machine.value Machine.zero_point_two)
  = Some (Qred (Py.float (2 # 10)))
  /\ option_map Qred (Machine.value Machine.zero_point_three)
     = Some (Qred (Py.float (3 # 10)))
  /\ option_map Qred
       (Machine.value
          (Machine.ten_stop_durations (repeat Machine.twenty_seven 3)))
     = Some (Qred (Py.fmul (stop_duration_of (load long_data)) 10))
  /\ option_map Qred
       (Machine.value
          (Machine.ten_stop_durations
             [Machine.zero_point_three; Machine.zero_point_seven]))
     = Some (Qred (Py.fmul (stop_duration_of (load decimal_data)) 10))
  /\ option_map Qred
       (Machine.value
          (Machine.ten_stop_durations (repeat Machine.zero_point_five 43)))
     = Some (Qred (Py.fmul
                     (Py.round53
                        (Py.fmul (Py.fsum (repeat (Py.float (1 # 2)) 43))
                                 (Py.float (2 # 10))
                         / Py.float 43)) 10))
  /\ Py.int (Py.fmul
               (Py.round53
                  (Py.fmul (Py.fsum (repeat (Py.float (1 # 2)) 43))
                           (Py.float (2 # 10))
                   / Py.float 43)) 10) = 0%Z.
Proof. repeat split; vm_compute; reflexivity. Qed.

Lemma ftruediv_Ok (a : Q) (n : Z) :
  n <> 0%Z -> Py.ftruediv a n = Ok (Py.round53 (a / Py.float (inject_Z n))).
Proof. intros Hn. unfold Py.ftruediv. now rewrite (proj2 (Z.eqb_neq n 0) Hn). Qed.

Lemma comprehension_total {A B} (f : A -> result B) (g : A -> B) (l : list A) :
  (forall x, f x = Ok (g x)) -> Py.comprehension f l = Ok (map g l).
Proof.
  intros Hf. induction l as [|x l IH]; simpl; [reflexivity|].
  now rewrite Hf, IH.
Qed.

(** ** Coordinate normalisation *)

(** One axis: the affine map and its inverse. *)
Lemma axis_inverse_left (lo hi x : Q) :
  lo < hi -> lo + ((x - lo) / (hi - lo) * 2 - 1 + 1) / 2 * (hi - lo) == x.
Proof. intros H. field. lra. Qed.

Lemma axis_inverse_right (lo hi u : Q) :
  lo < hi -> (lo + (u + 1) / 2 * (hi - lo) - lo) / (hi - lo) * 2 - 1 == u.
Proof. intros H. field. lra. Qed.

Lemma axis_range (lo hi x : Q) :
  lo < hi -> (lo <= x <= hi <-> -1 <= (x - lo) / (hi - lo) * 2 - 1 <= 1).
Proof.
  intros H.
  assert (Hpos : 0 < hi - lo) by lra.
  assert (E : (x - lo) / (hi - lo) * (hi - lo) == x - lo) by (field; lra).
  generalize dependent ((x - lo) / (hi - lo)). intros r E.
  split.
  - intros [H1 H2]. split.
    + assert (0 <= r); [|lra].
      destruct (Qlt_le_dec r 0) as [Hr|Hr]; [|exact Hr].
      assert (r * (hi - lo) < 0 * (hi - lo)); [|lra].
      apply Qmult_lt_compat_r; assumption.
    + assert (r <= 1); [|lra].
      destruct (Qlt_le_dec 1 r) as [Hr|Hr]; [|exact Hr].
      assert (1 * (hi - lo) < r * (hi - lo)); [|lra].
      apply Qmult_lt_compat_r; assumption.
  - intros [H1 H2].
    assert (Hr0 : 0 <= r) by lra. assert (Hr1 : r <= 1) by lra.
    assert (0 * (hi - lo) <= r * (hi - lo)) by (apply Qmult_le_compat_r; lra).
    assert (r * (hi - lo) <= 1 * (hi - lo)) by (apply Qmult_le_compat_r; lra).
    lra.
Qed.

Lemma axis_range_inverse (lo hi u : Q) :
  lo < hi -> -1 <= u <= 1 -> lo <= lo + (u + 1) / 2 * (hi - lo) <= hi.
Proof.
  intros H Hu.
  apply (axis_range lo hi _ H).
  rewrite (axis_inverse_right lo hi u H). exact Hu.
Qed.

Section Normalisation.

Variables min_x max_x min_y max_y : Q.
Hypothesis Hx : min_x < max_x.
Hypothesis Hy : min_y < max_y.

(** With a box that is not flat the method returns, and returns this. *)
Lemma normalize_coordinates_Ok (city : City.t) :
  City.normalize_coordinates city min_x max_x min_y max_y
  = Ok ((fst (City.coordinates city) - min_x) / (max_x - min_x) * 2 - 1,
        (snd (City.coordinates city) - min_y) / (max_y - min_y) * 2 - 1).
Proof.
  unfold City.normalize_coordinates.
  rewrite truediv_Ok by lra. simpl.
  rewrite truediv_Ok by lra. reflexivity.
Qed.

End Normalisation.

(** C8.  With bounds [min_x < max_x] and [min_y < max_y],
    [normalize_coordinates] is a bijection from the bounding box onto the
    square [-1,1] x [-1,1]: it returns for every city; a point lies in the box
    exactly when its image lies in the square, and the inverse linear map
    brings the image back to the point; every point of the square is the
    image of its inverse image, which lies in the box; the four corners of
    the box go to the four corners of the square and come back unchanged;
    the midpoint of the box goes to (0,0), and so does (10.5, 56) under the
    default bounds. *)
Theorem normalize_coordinates_bijection (min_x max_x min_y max_y : Q) :
  min_x < max_x -> min_y < max_y ->
  (forall city : City.t, exists p,
      City.normalize_coordinates city min_x max_x min_y max_y = Ok p
      /\ (in_box min_x max_x min_y max_y (City.coordinates city)
          <-> in_box (-1) 1 (-1) 1 p)
      /\ spec_inverse_map min_x max_x min_y max_y p =p= City.coordinates city)
  /\ (forall (nm : string) (q : Q * Q),
      in_box (-1) 1 (-1) 1 q ->
      in_box min_x max_x min_y max_y (spec_inverse_map min_x max_x min_y max_y q)
      /\ exists p,
          City.normalize_coordinates
            (City.mk nm (spec_inverse_map min_x max_x min_y max_y q))
            min_x max_x min_y max_y = Ok p
          /\ p =p= q)
  /\ (forall (nm : string) (right top : bool), exists p,
      let corner := (if right then max_x else min_x, if top then max_y else min_y) in
      City.normalize_coordinates (City.mk nm corner) min_x max_x min_y max_y = Ok p
      /\ p =p= (if right then 1 else -1, if top then 1 else -1)
      /\ spec_inverse_map min_x max_x min_y max_y p =p= corner)
  /\ (forall nm : string, exists p,
      City.normalize_coordinates
        (City.mk nm ((min_x + max_x) / 2, (min_y + max_y) / 2))
        min_x max_x min_y max_y = Ok p
      /\ p =p= (0, 0))
  /\ (forall nm : string, exists p,
      City.normalize_coordinates_default (City.mk nm (21 # 2, 56)) = Ok p
      /\ p =p= (0, 0)).
Proof.
  intros Hx Hy. repeat split.
  - eexists. split; [apply normalize_coordinates_Ok; assumption|]. split.
    + unfold in_box. simpl.
      rewrite <- (axis_range min_x max_x _ Hx), <- (axis_range min_y max_y _ Hy).
      reflexivity.
    + split; simpl; apply axis_inverse_left; assumption.
  - apply axis_range_inverse; [assumption|apply H].
  - apply axis_range_inverse; [assumption|apply H].
  - apply axis_range_inverse; [assumption|apply H].
  - apply axis_range_inverse; [assumption|apply H].
  - eexists. split; [apply normalize_coordinates_Ok; assumption|].
    split; simpl; apply axis_inverse_right; assumption.
  - intros nm right top. eexists. cbv zeta.
    split; [apply normalize_coordinates_Ok; assumption|].
    split; split; simpl; destruct right, top; field; lra.
  - eexists. split; [apply normalize_coordinates_Ok; assumption|].
    split; simpl; field; lra.
  - eexists. split; [reflexivity|]. split; reflexivity.
Qed.

(** The default box satisfies the hypotheses of C8; there the corner
    (13, 58) goes to (1, 1). *)
Lemma normalize_coordinates_bijection_witness :
  8 < 13 /\ 54 < 58
  /\ exists p,
      City.normalize_coordinates (City.mk "B" (13, 58)) 8 13 54 58 = Ok p
      /\ p =p= (1, 1).
Proof.
  assert (H1 : 8 < 13) by reflexivity.
  assert (H2 : 54 < 58) by reflexivity.
  split; [exact H1|]. split; [exact H2|].
  destruct (normalize_coordinates_bijection 8 13 54 58 H1 H2)
    as (_ & _ & Hcorner & _).
  destruct (Hcorner "B"%string true true) as (p & Hp & Himg & _).
  exists p. split; assumption.
Defined.

(** ** Construction of the visualizer *)

Lemma Ok_bind {A B} (a : A) (f : A -> result B) : Ok a ≫= f = f a.
Proof. reflexivity. Qed.

Lemma normalize_coordinates_default_Ok (city : City.t) :
  City.normalize_coordinates_default city = Ok (normalized city).
Proof. reflexivity. Qed.

Lemma build_pos_Ok (net : RailNetwork.t) :
  RailNetworkVisualizer.build_pos net
  = Ok (foldl (fun d kv => <[kv.1 := kv.2]> d) ∅
          (map (fun city => (City.name city, normalized city))
             (RailNetwork.cities_values net))).
Proof.
  unfold RailNetworkVisualizer.build_pos.
  rewrite (comprehension_total _ (fun city => (City.name city, normalized city)));
    [reflexivity|].
  intros city. reflexivity.
Qed.

Lemma length_nonzero {A} (l : list A) : l <> [] -> Z.of_nat (length l) <> 0%Z.
Proof. destruct l; [congruence|simpl; lia]. Qed.

(** The constructor returns exactly when there is a connection, and then
    the object is this one. *)
Lemma init_Ok (net : RailNetwork.t) (show_live : bool) (duration : Z) :
  RailNetwork.connections net <> [] ->
  exists pos,
    RailNetworkVisualizer.build_pos net = Ok pos
    /\ RailNetworkVisualizer.init net show_live duration
       = Ok (RailNetworkVisualizer.mk net show_live duration pos
               six_o_clock six_o_clock (duration * 10)%Z
               (repeat (stop_duration_of net)
                  (length (RailNetwork.connections net)))).
Proof.
  intros Hne. eexists. split; [apply build_pos_Ok|].
  unfold RailNetworkVisualizer.init. rewrite build_pos_Ok, Ok_bind.
  unfold RailNetworkVisualizer.calculate_frames_and_stops,
    RailNetworkVisualizer.connections. simpl.
  rewrite ftruediv_Ok by (apply length_nonzero, Hne).
  reflexivity.
Qed.

Lemma init_no_connection (net : RailNetwork.t) (show_live : bool) (duration : Z) :
  RailNetwork.connections net = [] ->
  RailNetworkVisualizer.init net show_live duration = Raise ZeroDivisionError.
Proof.
  intros Hnil. unfold RailNetworkVisualizer.init. rewrite build_pos_Ok, Ok_bind.
  unfold RailNetworkVisualizer.calculate_frames_and_stops,
    RailNetworkVisualizer.connections. simpl.
  rewrite Hnil. reflexivity.
Qed.

Lemma init_inv (net : RailNetwork.t) (show_live : bool) (duration : Z)
    (self : RailNetworkVisualizer.t) :
  RailNetworkVisualizer.init net show_live duration = Ok self ->
  RailNetwork.connections net <> []
  /\ exists pos,
      RailNetworkVisualizer.build_pos net = Ok pos
      /\ self = RailNetworkVisualizer.mk net show_live duration pos
                  six_o_clock six_o_clock (duration * 10)%Z
                  (repeat (stop_duration_of net)
                     (length (RailNetwork.connections net))).
Proof.
  intros Hinit.
  destruct (RailNetwork.connections net) as [|c l] eqn:Hc.
  - rewrite (init_no_connection _ _ _ Hc) in Hinit. discriminate.
  - split; [discriminate|].
    destruct (init_Ok net show_live duration) as (pos & Hpos & Heq).
    { rewrite Hc. discriminate. }
    exists pos. split; [exact Hpos|].
    rewrite Hinit, Hc in Heq. now injection Heq.
Qed.

(** ** The schedule and the loop of [update] *)

Lemma lookup_repeat {A} (x : A) (n i : nat) : (i < n)%nat -> repeat x n !! i = Some x.
Proof.
  revert i. induction n as [|n IH]; intros i Hi; [lia|].
  destruct i as [|i]; simpl; [reflexivity|]. apply IH. lia.
Qed.

Section Schedule.

Import RailNetworkVisualizer.

(** An object whose schedule is the one [calculate_frames_and_stops]
    leaves: one travel-frame-count, and one stop duration per
    connection, all equal. *)
Variable self : t.
Variables (tf sf : Z) (sd : Q).
Hypothesis Htf : travel_frames self = Ok tf.
Hypothesis Hsd : stop_durations self = repeat sd (length (connections self)).
Hypothesis Hsf : sf = Py.int (Py.fmul sd 10).

Lemma stop_duration_lt (idx : nat) :
  (idx < length (connections self))%nat -> Py.index (stop_durations self) idx = Ok sd.
Proof using Hsd.
  intros Hidx. unfold Py.index. rewrite Hsd.
  rewrite (lookup_repeat sd _ idx Hidx). reflexivity.
Qed.

Lemma stop_frames_lt (idx : nat) :
  (idx < length (connections self))%nat -> stop_frames self idx = Ok sf.
Proof using Hsd Hsf.
  intros Hidx. unfold stop_frames.
  rewrite (stop_duration_lt idx Hidx), Ok_bind, Hsf. reflexivity.
Qed.




(** The iteration whose travel range holds the frame. *)
Lemma update_loop_travel (frame : Z) (idx : nat) (cum : Z) (c : Connection.t)
    (rest : list Connection.t) (ps pe : Q * Q) :
  (idx < length (connections self))%nat ->
  (cum <= frame < cum + tf)%Z ->
  pos self !! Connection.start_city c = Some ps ->
  pos self !! Connection.end_city c = Some pe ->
  update_loop self frame idx cum (c :: rest)
  = Ok (set_current_time self
          (current_time self
           + timedelta_hours (Connection.duration c * (1 / inject_Z tf))),
        Some (fst ps + (fst pe - fst ps) * inject_Z (frame - cum) / inject_Z tf,
              snd ps + (snd pe - snd ps) * inject_Z (frame - cum) / inject_Z tf)).
Proof using Htf Hsd Hsf.
  intros Hidx Hrange Hps Hpe. cbn [update_loop].
  rewrite Htf, Ok_bind, (stop_frames_lt idx Hidx), Ok_bind.
  replace (cum <=? frame)%Z with true by (symmetry; apply Z.leb_le; lia).
  replace (frame <? cum + tf)%Z with true by (symmetry; apply Z.ltb_lt; lia).
  cbn [andb]. unfold Py.getitem. rewrite Hps, Hpe.
  destruct ps as [x_start y_start], pe as [x_end y_end]. rewrite !Ok_bind.
  assert (Hnz : ~ inject_Z tf == 0) by (apply inject_Z_nonzero; lia).
  rewrite !(truediv_Ok _ _ Hnz), !Ok_bind. reflexivity.
Qed.

(** The iteration whose stop range holds the frame. *)
Lemma update_loop_stop (frame : Z) (idx : nat) (cum : Z) (c : Connection.t)
    (rest : list Connection.t) (pe : Q * Q) :
  (idx < length (connections self))%nat ->
  (cum + tf <= frame < cum + tf + sf)%Z ->
  pos self !! Connection.end_city c = Some pe ->
  update_loop self frame idx cum (c :: rest)
  = Ok (set_current_time self (current_time self + timedelta_minutes (sd / 10)),
        Some pe).
Proof using Htf Hsd Hsf.
  intros Hidx Hrange Hpe. cbn [update_loop].
  rewrite Htf, Ok_bind, (stop_frames_lt idx Hidx), Ok_bind.
  replace (frame <? cum + tf)%Z with false by (symmetry; apply Z.ltb_ge; lia).
  replace (cum + tf <=? frame)%Z with true by (symmetry; apply Z.leb_le; lia).
  replace (frame <? cum + tf + sf)%Z with true by (symmetry; apply Z.ltb_lt; lia).
  rewrite andb_false_r. cbn [andb]. unfold Py.getitem. rewrite Hpe.
  destruct pe as [x y]. rewrite Ok_bind, (stop_duration_lt idx Hidx), Ok_bind.
  reflexivity.
Qed.


End Schedule.

(** ** The dict of cities and the dict of positions *)

Lemma keys_are_names_insert (cities : gmap string City.t) (city : City.t) :
  keys_are_names cities -> keys_are_names (<[City.name city := city]> cities).
Proof.
  intros H k c. rewrite lookup_insert. case_decide as E.
  - intros [= <-]. exact E.
  - apply H.
Qed.

Lemma load_from_json_cities (data : json_data) (net : RailNetwork.t) :
  RailNetwork.cities (RailNetwork.load_from_json data net)
  = foldl (fun m cd => <[cd_name cd := City.mk (cd_name cd) (cd_coordinates cd)]> m)
      (RailNetwork.cities net) (data_cities data).
Proof.
  unfold RailNetwork.load_from_json.
  generalize (data_connections data) as conns.
  generalize (data_cities data) as cs. revert net.
  assert (Hconn : forall conns net,
    RailNetwork.cities
      (foldl (fun self cd =>
                RailNetwork.add_connection
                  (Connection.mk (cd_start_city cd) (cd_end_city cd) (cd_duration cd)) self)
         net conns) = RailNetwork.cities net).
  { induction conns as [|cd conns IH]; intros net; [reflexivity|].
    simpl. rewrite IH. reflexivity. }
  intros net cs conns. rewrite Hconn. revert net.
  induction cs as [|cd cs IH]; intros net; [reflexivity|].
  simpl. rewrite IH. reflexivity.
Qed.

Lemma load_from_json_connections (data : json_data) (net : RailNetwork.t) :
  RailNetwork.connections (RailNetwork.load_from_json data net)
  = RailNetwork.connections net
    ++ map (fun cd => Connection.mk (cd_start_city cd) (cd_end_city cd) (cd_duration cd))
         (data_connections data).
Proof.
  unfold RailNetwork.load_from_json.
  generalize (data_connections data) as conns.
  generalize (data_cities data) as cs. revert net.
  assert (Hcity : forall cs net,
    RailNetwork.connections
      (foldl (fun self cd =>
                RailNetwork.add_city (City.mk (cd_name cd) (cd_coordinates cd)) self)
         net cs) = RailNetwork.connections net).
  { induction cs as [|cd cs IH]; intros net; [reflexivity|].
    simpl. rewrite IH. reflexivity. }
  intros net cs conns. rewrite <- (Hcity cs net).
  generalize (foldl (fun self cd =>
                RailNetwork.add_city (City.mk (cd_name cd) (cd_coordinates cd)) self)
         net cs) as net'.
  induction conns as [|cd conns IH]; intros net'; simpl.
  - now rewrite app_nil_r.
  - rewrite IH. simpl. now rewrite <- app_assoc.
Qed.

Lemma built_keys_are_names (net : RailNetwork.t) :
  RailNetwork.built net -> keys_are_names (RailNetwork.cities net).
Proof.
  induction 1 as [|city self _ IH|connection self _ IH|self _ IH|data self _ IH].
  - intros k c. simpl. rewrite lookup_empty. discriminate.
  - simpl. apply keys_are_names_insert, IH.
  - exact IH.
  - exact IH.
  - rewrite load_from_json_cities.
    generalize dependent (RailNetwork.cities self).
    induction (data_cities data) as [|cd cs IHcs]; intros m Hm; [exact Hm|].
    simpl. apply IHcs.
    apply (keys_are_names_insert m (City.mk (cd_name cd) (cd_coordinates cd)) Hm).
Qed.

Lemma foldl_insert_list_to_map {V} (l : list (string * V)) (d : gmap string V) :
  NoDup l.*1 ->
  foldl (fun d kv => <[kv.1 := kv.2]> d) d l = list_to_map l ∪ d.
Proof.
  revert d. induction l as [|[k v] l IH]; intros d Hnd; simpl.
  - now rewrite (left_id_L ∅ (∪)).
  - apply NoDup_cons in Hnd as [Hk Hnd].
    rewrite IH by exact Hnd.
    rewrite <- insert_union_l. symmetry. apply insert_union_r.
    apply not_elem_of_list_to_map_1, Hk.
Qed.

(** The positions are the normalised coordinates of the declared cities,
    under the same keys. *)
Lemma build_pos_built (net : RailNetwork.t) :
  keys_are_names (RailNetwork.cities net) ->
  RailNetworkVisualizer.build_pos net = Ok (normalized <$> RailNetwork.cities net).
Proof.
  intros Hkeys. rewrite build_pos_Ok. f_equal.
  unfold RailNetwork.cities_values.
  set (m := RailNetwork.cities net) in *.
  assert (E : map (fun city => (City.name city, normalized city)) (map_to_list m).*2
              = prod_map id normalized <$> map_to_list m).
  { rewrite <- list_fmap_compose. apply list_fmap_ext.
    intros i [k c] Hi. simpl.
    apply list_elem_of_lookup_2, elem_of_map_to_list, Hkeys in Hi.
    now rewrite Hi. }
  rewrite E, foldl_insert_list_to_map.
  - rewrite (right_id_L ∅ (∪)), list_to_map_fmap, list_to_map_to_list. reflexivity.
  - rewrite <- list_fmap_compose.
    rewrite (list_fmap_ext (fst ∘ prod_map id normalized) fst (map_to_list m));
      [apply NoDup_fst_map_to_list|].
    intros i [k c] _. reflexivity.
Qed.

(** Every declared name has a position: the normalised coordinates of a
    city of that name. *)
Lemma foldl_insert_named (cs : list City.t) (d : gmap string (Q * Q)) (n : string) :
  (exists city, In city cs /\ City.name city = n) ->
  exists city,
    In city cs /\ City.name city = n
    /\ foldl (fun d kv => <[kv.1 := kv.2]> d) d
         (map (fun city => (City.name city, normalized city)) cs) !! n
       = Some (normalized city).
Proof.
  induction cs as [|x cs IH] using rev_ind; intros (city & Hin & Hn).
  - destruct Hin.
  - rewrite map_app, foldl_app. simpl.
    destruct (decide (City.name x = n)) as [Hx|Hx].
    + exists x. split; [apply in_or_app; right; left; reflexivity|].
      split; [exact Hx|]. rewrite Hx. apply lookup_insert_eq.
    + apply in_app_or in Hin as [Hin|[<-|[]]]; [|contradiction].
      destruct IH as (c & Hc & Hcn & Hl); [exists city; split; assumption|].
      exists c. split; [apply in_or_app; left; exact Hc|].
      split; [exact Hcn|]. rewrite lookup_insert_ne by exact Hx. exact Hl.
Qed.

Lemma pos_declared (net : RailNetwork.t) (pos : gmap string (Q * Q)) (n : string) :
  RailNetworkVisualizer.build_pos net = Ok pos ->
  RailNetwork.declared net n ->
  exists city,
    In city (RailNetwork.cities_values net) /\ City.name city = n
    /\ pos !! n = Some (normalized city).
Proof.
  intros Hpos Hn. rewrite build_pos_Ok in Hpos. injection Hpos as <-.
  apply foldl_insert_named.
  apply Exists_exists in Hn as (city & Hin & Hname).
  exists city. split; [apply list_elem_of_In, Hin|exact Hname].
Qed.

(** [visualizer_for] is what the constructor returns. *)
Lemma init_visualizer_for (data : json_data) (duration : Z) :
  data_connections data <> [] ->
  RailNetworkVisualizer.init (load data) false duration
  = Ok (visualizer_for data duration).
Proof.
  intros Hne.
  destruct (init_Ok (load data) false duration) as (pos & Hpos & Hinit).
  - unfold load. rewrite load_from_json_connections. simpl.
    destruct (data_connections data); [congruence|discriminate].
  - rewrite build_pos_built in Hpos
      by (apply built_keys_are_names, RailNetwork.built_load_from_json,
            RailNetwork.built_init).
    injection Hpos as <-. exact Hinit.
Qed.

(** In a built network the declared names are the keys of [cities]. *)
Lemma built_declared (net : RailNetwork.t) (n : string) :
  RailNetwork.built net ->
  (RailNetwork.declared net n <-> is_Some (RailNetwork.cities net !! n)).
Proof.
  intros Hbuilt. pose proof (built_keys_are_names net Hbuilt) as Hkeys.
  unfold RailNetwork.declared, RailNetwork.cities_values.
  rewrite Exists_exists. split.
  - intros (city & Hin & <-).
    apply list_elem_of_fmap in Hin as ([k c] & -> & Hin).
    apply elem_of_map_to_list in Hin. simpl.
    rewrite (Hkeys k c Hin). eexists. exact Hin.
  - intros [city Hc]. exists city. split; [|apply (Hkeys n city Hc)].
    apply list_elem_of_fmap. exists (n, city).
    split; [reflexivity|]. apply elem_of_map_to_list, Hc.
Qed.

(** ** The object after construction *)

(** The stop duration that [calculate_frames_and_stops] gives to every
    connection. *)
Lemma durations_nonneg (conns : list Connection.t) :
  Forall (fun c => 0 <= Connection.duration c) conns ->
  Forall (fun x => 0 <= x)
    (map (fun connection => Py.float (Connection.duration connection)) conns).
Proof.
  intros H. apply Forall_map. eapply Forall_impl; [exact H|].
  intros c Hc. apply round53_nonneg, Hc.
Qed.

Lemma stop_duration_nonneg (net : RailNetwork.t) :
  Forall (fun c => 0 <= Connection.duration c) (RailNetwork.connections net) ->
  0 <= stop_duration_of net.
Proof.
  intros H. unfold stop_duration_of. apply round53_nonneg.
  unfold Qdiv. apply Qmult_le_0_compat.
  - apply fmul_nonneg; [|apply round53_nonneg; lra].
    apply fsum_nonneg, durations_nonneg, H.
  - apply Qinv_le_0_compat, round53_nonneg. unfold Qle. simpl. lia.
Qed.

Lemma init_travel_frames (net : RailNetwork.t) (show_live : bool) (duration : Z)
    (self : RailNetworkVisualizer.t) :
  RailNetworkVisualizer.init net show_live duration = Ok self ->
  RailNetworkVisualizer.travel_frames self
  = Ok (duration * 10 / Z.of_nat (length (RailNetwork.connections net)))%Z.
Proof.
  intros Hinit. apply init_inv in Hinit as (Hne & pos & _ & ->).
  unfold RailNetworkVisualizer.travel_frames, RailNetworkVisualizer.connections. simpl.
  apply floordiv_Ok, length_nonzero, Hne.
Qed.








(** ** Frame counts *)

Lemma comprehension_const {A B} (r : B) (l : list A) :
  Py.comprehension (fun _ => Ok r) l = Ok (repeat r (length l)).
Proof.
  induction l as [|x l IH]; simpl; [reflexivity|]. now rewrite IH.
Qed.


Lemma total_repeat (z : Z) (n : nat) : total (repeat z n) = (Z.of_nat n * z)%Z.
Proof. induction n as [|n IH]; [reflexivity|]. simpl repeat. simpl total. lia. Qed.

Lemma init_travel_frame_counts (net : RailNetwork.t) (show_live : bool) (D : Z)
    (self : RailNetworkVisualizer.t) :
  RailNetworkVisualizer.init net show_live D = Ok self ->
  travel_frame_counts self
  = Ok (repeat (D * 10 / Z.of_nat (length (RailNetwork.connections net)))%Z
          (length (RailNetwork.connections net))).
Proof.
  intros Hinit. unfold travel_frame_counts.
  rewrite (init_travel_frames _ _ _ _ Hinit).
  apply init_inv in Hinit as (_ & pos & _ & ->).
  rewrite comprehension_const, length_seq. reflexivity.
Qed.

(** C2.  After construction from a network with at least one connection
    and a duration of [D] seconds, [total_frames] is [D * 10], and the travel
    frame counts of the connections add up to [total_frames] less the
    remainder of its division by the number of connections: the remainder
    is dropped. *)
Theorem frames_total (net : RailNetwork.t) (show_live : bool) (D : Z)
    (self : RailNetworkVisualizer.t) :
  RailNetworkVisualizer.init net show_live D = Ok self ->
  let n := Z.of_nat (length (RailNetwork.connections net)) in
  (1 <= n)%Z
  /\ RailNetworkVisualizer.total_frames self = (D * 10)%Z
  /\ exists counts : list Z,
      travel_frame_counts self = Ok counts
      /\ length counts = length (RailNetwork.connections net)
      /\ total counts
         = (RailNetworkVisualizer.total_frames self
            - RailNetworkVisualizer.total_frames self mod n)%Z
      /\ (0 <= RailNetworkVisualizer.total_frames self mod n < n)%Z.
Proof.
  intros Hinit n.
  pose proof (init_travel_frame_counts _ _ _ _ Hinit) as Hcounts.
  apply init_inv in Hinit as (Hne & pos & _ & ->).
  assert (Hn : (1 <= n)%Z).
  { subst n. destruct (RailNetwork.connections net); [congruence|simpl; lia]. }
  split; [exact Hn|]. split; [reflexivity|].
  eexists. split; [exact Hcounts|]. split; [apply repeat_length|].
  cbn [RailNetworkVisualizer.total_frames].
  split; [|apply Z.mod_pos_bound; lia].
  rewrite total_repeat. fold n.
  pose proof (Z.div_mod (D * 10) n ltac:(lia)). lia.
Qed.

(** The three connections of the triangle and a video of 10 seconds: 100
    frames, 33 travel frames each, and one frame dropped. *)
Lemma frames_total_witness :
  RailNetworkVisualizer.total_frames (visualizer_for triangle_data 10) = 100%Z
  /\ exists counts : list Z,
      travel_frame_counts (visualizer_for triangle_data 10) = Ok counts
      /\ total counts = (100 - 1)%Z.
Proof.
  destruct (frames_total (load triangle_data) false 10 (visualizer_for triangle_data 10))
    as (_ & Htotal & counts & Hcounts & _ & Hsum & _).
  - vm_compute. reflexivity.
  - split; [exact Htotal|]. exists counts. split; [exact Hcounts|].
    rewrite Hsum. reflexivity.
Defined.

(** C4.  After construction, the travel frame count of every connection is
    [total_frames] divided by the number of connections, rounded down; it
    is the same for all of them, and a network with the same number of
    connections and other durations or cities gets the same counts. *)
Theorem travel_frames_even (net : RailNetwork.t) (show_live : bool) (D : Z)
    (self : RailNetworkVisualizer.t) :
  RailNetworkVisualizer.init net show_live D = Ok self ->
  let n := length (RailNetwork.connections net) in
  RailNetworkVisualizer.travel_frames self
  = Ok (RailNetworkVisualizer.total_frames self / Z.of_nat n)%Z
  /\ travel_frame_counts self
     = Ok (repeat (RailNetworkVisualizer.total_frames self / Z.of_nat n)%Z n)
  /\ forall (net' : RailNetwork.t) (show_live' : bool)
            (self' : RailNetworkVisualizer.t),
      RailNetworkVisualizer.init net' show_live' D = Ok self' ->
      length (RailNetwork.connections net') = n ->
      travel_frame_counts self' = travel_frame_counts self.
Proof.
  intros Hinit n.
  pose proof (init_travel_frames _ _ _ _ Hinit) as Htf.
  pose proof (init_travel_frame_counts _ _ _ _ Hinit) as Hcounts.
  assert (Htotal : RailNetworkVisualizer.total_frames self = (D * 10)%Z).
  { apply init_inv in Hinit as (_ & pos & _ & ->). reflexivity. }
  rewrite Htotal. split; [exact Htf|]. split; [exact Hcounts|].
  intros net' show_live' self' Hinit' Hlen.
  rewrite (init_travel_frame_counts _ _ _ _ Hinit'), Hcounts, Hlen. reflexivity.
Qed.

(** The triangle, whose durations are 1, 1 and 2 hours: 33 frames each. *)
Lemma travel_frames_even_witness :
  travel_frame_counts (visualizer_for triangle_data 10) = Ok [33; 33; 33]%Z.
Proof.
  destruct (travel_frames_even (load triangle_data) false 10
              (visualizer_for triangle_data 10)) as (_ & Hcounts & _).
  - vm_compute. reflexivity.
  - exact Hcounts.
Defined.





(** ** No connection *)

(** C5, with the exception that the code raises.  Constructing the
    visualizer for a network without connections raises
    [ZeroDivisionError], whatever the cities, the graph and the duration;
    the script then stops at the constructor, so no frame is rendered. *)
Theorem no_connection_raises :
  (forall (cities : gmap string City.t) (graph : nx.Graph) (show_live : bool) (D : Z),
      RailNetworkVisualizer.init (RailNetwork.mk cities [] graph) show_live D
      = Raise ZeroDivisionError)
  /\ (forall (cities : list city_data) (D : Z),
      main (mk_json_data cities []) D = Raise ZeroDivisionError).
Proof.
  split.
  - intros cities graph show_live D. apply init_no_connection. reflexivity.
  - intros cities D. unfold main.
    rewrite init_no_connection; [reflexivity|].
    rewrite load_from_json_connections. reflexivity.
Qed.

(** C5 as stated fails: for the empty network the constructor raises
    [ZeroDivisionError], the exception of the division by the number of
    connections; the source has no [InvalidScheduleError]. *)
Lemma no_connection_counterexample :
  RailNetworkVisualizer.init RailNetwork.init false 12 = Raise ZeroDivisionError
  /\ main (mk_json_data [mk_city_data "A" (8, 54)] []) 12 = Raise ZeroDivisionError.
Proof. split; reflexivity. Qed.

(** ** What one call of [update] changes *)

Section Update.

Import RailNetworkVisualizer.

Lemma set_current_time_idem (self : t) (c c' : Q) :
  set_current_time (set_current_time self c) c' = set_current_time self c'.
Proof. reflexivity. Qed.

Lemma set_current_time_same (self : t) :
  set_current_time self (current_time self) = self.
Proof. destruct self. reflexivity. Qed.

(** The three ways in which the loop ends. *)
Lemma update_loop_inv (self : t) (frame : Z) (rest : list Connection.t) :
  forall (idx : nat) (cum : Z) (self' : t) (m : option (Q * Q)),
    update_loop self frame idx cum rest = Ok (self', m) ->
    (self' = self /\ m = None)
    \/ (exists (c : Connection.t) (tf : Z) (marker : Q * Q),
           In c rest /\ travel_frames self = Ok tf /\ (0 < tf)%Z
           /\ m = Some marker
           /\ self' = set_current_time self
                        (current_time self
                         + timedelta_hours (Connection.duration c * (1 / inject_Z tf))))
    \/ (exists (sd : Q) (marker : Q * Q),
           In sd (stop_durations self)
           /\ m = Some marker
           /\ self' = set_current_time self
                        (current_time self + timedelta_minutes (sd / 10))).
Proof.
  induction rest as [|conn rest IH]; intros idx cum self' m H.
  - injection H as <- <-. left. split; reflexivity.
  - cbn [update_loop] in H.
    inv_bind H. rename a into tf, E into Etf.
    inv_bind H. rename a into sf, E into Esf.
    destruct ((cum <=? frame)%Z && (frame <? cum + tf)%Z) eqn:Htravel.
    + inv_bind H. destruct a as [x_start y_start].
      inv_bind H. destruct a as [x_end y_end].
      inv_bind H. inv_bind H. inv_bind H.
      injection H as <- <-.
      match goal with
      | Hr : Py.truediv 1 _ = Ok _ |- _ => apply truediv_inv in Hr as [_ ->]
      end.
      apply andb_true_iff in Htravel as [H1 H2].
      apply Z.leb_le in H1. apply Z.ltb_lt in H2.
      right. left. exists conn, tf. eexists.
      split; [left; reflexivity|]. split; [exact Etf|]. split; [lia|].
      split; reflexivity.
    + destruct ((cum + tf <=? frame)%Z && (frame <? cum + tf + sf)%Z) eqn:Hstop.
      * inv_bind H. destruct a as [x y].
        inv_bind H. rename a into sd, E0 into Eidx.
        injection H as <- <-.
        right. right. exists sd. eexists. split; [|split; reflexivity].
        unfold Py.index in Eidx.
        destruct (stop_durations self !! idx) as [sd'|] eqn:Hl; [|discriminate].
        injection Eidx as ->.
        apply list_elem_of_In. eapply list_elem_of_lookup_2. exact Hl.
      * apply IH in H as [H|[H|H]].
        -- left. exact H.
        -- right. left. destruct H as (c & tf' & marker & Hin & H).
           exists c, tf', marker. split; [right; exact Hin|exact H].
        -- right. right. exact H.
Qed.

(** [update] touches the clock only. *)
Lemma update_frame (self self' : t) (frame : Z) (m : option (Q * Q)) :
  update self frame = Ok (self', m) ->
  self' = set_current_time self (current_time self').
Proof.
  intros H. apply update_loop_inv in H as [[-> _]|[H|H]].
  - symmetry. apply set_current_time_same.
  - destruct H as (c & tf & marker & _ & _ & _ & _ & ->). reflexivity.
  - destruct H as (sd & marker & _ & _ & ->). reflexivity.
Qed.

Lemma Qle_plus_nonneg (a d : Q) : 0 <= d -> a <= a + d.
Proof. intros H. lra. Qed.

Lemma travel_share_nonneg (duration : Q) (tf : Z) :
  0 <= duration -> (0 < tf)%Z -> 0 <= timedelta_hours (duration * (1 / inject_Z tf)).
Proof.
  intros Hd Htf. unfold timedelta_hours.
  apply Qmult_le_0_compat; [exact Hd|].
  unfold Qdiv. rewrite Qmult_1_l. apply Qinv_le_0_compat.
  unfold Qle. simpl. lia.
Qed.

Lemma stop_share_nonneg (sd : Q) : 0 <= sd -> 0 <= timedelta_minutes (sd / 10).
Proof.
  intros H. unfold timedelta_minutes.
  assert (E : sd / 10 / 60 == sd * (1 # 600)) by field.
  rewrite E. lra.
Qed.

(** With durations that are not negative the clock does not go back. *)
Lemma update_clock_le (self self' : t) (frame : Z) (m : option (Q * Q)) :
  Forall (fun c => 0 <= Connection.duration c) (connections self) ->
  Forall (fun sd => 0 <= sd) (stop_durations self) ->
  update self frame = Ok (self', m) ->
  current_time self <= current_time self'.
Proof.
  intros Hdur Hstop H. apply update_loop_inv in H as [[-> _]|[H|H]].
  - apply Qle_refl.
  - destruct H as (c & tf & marker & Hin & _ & Htf & _ & ->).
    cbn [current_time set_current_time].
    apply Qle_plus_nonneg, travel_share_nonneg; [|exact Htf].
    rewrite Forall_forall in Hdur. apply Hdur, list_elem_of_In, Hin.
  - destruct H as (sd & marker & Hin & _ & ->).
    cbn [current_time set_current_time].
    apply Qle_plus_nonneg, stop_share_nonneg.
    rewrite Forall_forall in Hstop. apply Hstop, list_elem_of_In, Hin.
Qed.

End Update.

Section Total.

Import RailNetworkVisualizer.

Variable self : t.
Variables (tf sf : Z) (sd : Q).
Hypothesis Htf : travel_frames self = Ok tf.
Hypothesis Hsd : stop_durations self = repeat sd (length (connections self)).
Hypothesis Hsf : sf = Py.int (Py.fmul sd 10).

(** One iteration that matches neither range goes on to the next. *)
Lemma update_loop_next (frame : Z) (idx : nat) (cum : Z) (c : Connection.t)
    (rest : list Connection.t) :
  (idx < length (connections self))%nat ->
  ((cum <=? frame) && (frame <? cum + tf))%Z = false ->
  ((cum + tf <=? frame) && (frame <? cum + tf + sf))%Z = false ->
  update_loop self frame idx cum (c :: rest)
  = update_loop self frame (S idx) (cum + (tf + sf))%Z rest.
Proof using Htf Hsd Hsf.
  intros Hidx H1 H2. cbn [update_loop].
  rewrite Htf, Ok_bind, (stop_frames_lt self sf sd Hsd Hsf idx Hidx), Ok_bind.
  rewrite H1, H2. reflexivity.
Qed.

(** When every endpoint has a position, the loop returns. *)
Lemma update_loop_total (frame : Z) (rest : list Connection.t) :
  forall (idx : nat) (cum : Z),
    (idx + length rest <= length (connections self))%nat ->
    Forall (fun c => is_Some (pos self !! Connection.start_city c)
                     /\ is_Some (pos self !! Connection.end_city c)) rest ->
    exists r, update_loop self frame idx cum rest = Ok r.
Proof using Htf Hsd Hsf.
  induction rest as [|c rest IH]; intros idx cum Hlen Hpos.
  - eexists. reflexivity.
  - simpl in Hlen. apply Forall_cons in Hpos as [[[ps Hps] [pe Hpe]] Hpos].
    destruct ((cum <=? frame)%Z && (frame <? cum + tf)%Z) eqn:H1.
    + apply andb_true_iff in H1 as [Ha Hb].
      apply Z.leb_le in Ha. apply Z.ltb_lt in Hb.
      rewrite (update_loop_travel self tf sf sd Htf Hsd Hsf _ _ _ _ _ ps pe);
        [eexists; reflexivity|lia|lia|exact Hps|exact Hpe].
    + destruct ((cum + tf <=? frame)%Z && (frame <? cum + tf + sf)%Z) eqn:H2.
      * apply andb_true_iff in H2 as [Ha Hb].
        apply Z.leb_le in Ha. apply Z.ltb_lt in Hb.
        rewrite (update_loop_stop self tf sf sd Htf Hsd Hsf _ _ _ _ _ pe);
          [eexists; reflexivity|lia|lia|exact Hpe].
      * rewrite update_loop_next; [|lia|exact H1|exact H2].
        apply IH; [lia|exact Hpos].
Qed.

End Total.

Section History.

Import RailNetworkVisualizer.

(** The loop reads no clock: started with another value of
    [current_time], it plots the same marker and moves the clock by the
    same amount. *)
Lemma update_loop_set_clock (self : t) (frame : Z) (c : Q) (rest : list Connection.t) :
  forall (idx : nat) (cum : Z) (self' : t) (m : option (Q * Q)),
    update_loop self frame idx cum rest = Ok (self', m) ->
    exists self'' : t,
      update_loop (set_current_time self c) frame idx cum rest = Ok (self'', m)
      /\ current_time self'' - c == current_time self' - current_time self.
Proof.
  induction rest as [|conn rest IH]; intros idx cum self' m H.
  - injection H as <- <-. eexists. split; [reflexivity|].
    cbn [current_time set_current_time]. ring.
  - cbn [update_loop] in H |- *.
    change (travel_frames (set_current_time self c)) with (travel_frames self).
    change (stop_frames (set_current_time self c) idx) with (stop_frames self idx).
    change (pos (set_current_time self c)) with (pos self).
    change (stop_durations (set_current_time self c)) with (stop_durations self).
    inv_bind H. rename a into tf. rewrite E, Ok_bind.
    inv_bind H. rename a into sf. rewrite E0, Ok_bind.
    destruct ((cum <=? frame)%Z && (frame <? cum + tf)%Z).
    + inv_bind H. destruct a as [x_start y_start]. rewrite E1, Ok_bind.
      inv_bind H. destruct a as [x_end y_end]. rewrite E2, Ok_bind.
      inv_bind H. rewrite E3, Ok_bind.
      inv_bind H. rewrite E4, Ok_bind.
      inv_bind H. rewrite E5, Ok_bind.
      injection H as <- <-. eexists. split; [reflexivity|].
      cbn [current_time set_current_time]. ring.
    + destruct ((cum + tf <=? frame)%Z && (frame <? cum + tf + sf)%Z).
      * inv_bind H. destruct a as [x y]. rewrite E1, Ok_bind.
        inv_bind H. rewrite E2, Ok_bind.
        injection H as <- <-. eexists. split; [reflexivity|].
        cbn [current_time set_current_time]. ring.
      * apply IH, H.
Qed.

End History.

(** ** Runs of [update] after construction *)

Section Runs.

Import RailNetworkVisualizer.

Lemma nondecreasing_one (x : Q) : nondecreasing [x].
Proof. intros i a b Ha Hb. destruct i; discriminate. Qed.

Lemma nondecreasing_cons (x y : Q) (l : list Q) :
  x <= y -> nondecreasing (y :: l) -> nondecreasing (x :: y :: l).
Proof.
  intros Hxy Hl i a b Ha Hb. destruct i as [|i].
  - simpl in Ha, Hb. injection Ha as <-. injection Hb as <-. exact Hxy.
  - apply (Hl i a b); assumption.
Qed.

Lemma clock_trace_nondecreasing (frames : list Z) :
  forall self : t,
    Forall (fun c => 0 <= Connection.duration c) (connections self) ->
    Forall (fun sd => 0 <= sd) (stop_durations self) ->
    nondecreasing (current_time self :: clock_trace self frames).
Proof.
  induction frames as [|frame frames IH]; intros self Hdur Hstop.
  - apply nondecreasing_one.
  - cbn [clock_trace].
    destruct (update self frame) as [[self' m]|e] eqn:Hupd;
      [|apply nondecreasing_one].
    apply nondecreasing_cons.
    + apply (update_clock_le self self' frame m Hdur Hstop Hupd).
    + apply update_frame in Hupd. apply IH; rewrite Hupd; assumption.
Qed.

Lemma repeat_Forall {A} (P : A -> Prop) (x : A) (n : nat) : P x -> Forall P (repeat x n).
Proof. intros H. induction n; simpl; constructor; assumption. Qed.

Variable net : RailNetwork.t.
Variable show_live : bool.
Variable D : Z.
Variable self : t.
Hypothesis Hinit : init net show_live D = Ok self.

Lemma init_connections : connections self = RailNetwork.connections net.
Proof using Hinit. apply init_inv in Hinit as (_ & pos & _ & ->). reflexivity. Qed.

Lemma init_current_time : current_time self = six_o_clock.
Proof using Hinit. apply init_inv in Hinit as (_ & pos & _ & ->). reflexivity. Qed.

Lemma init_stop_durations_nonneg :
  Forall (fun c => 0 <= Connection.duration c) (RailNetwork.connections net) ->
  Forall (fun sd => 0 <= sd) (stop_durations self).
Proof using Hinit.
  intros Hdur. apply init_inv in Hinit as (_ & pos & _ & ->).
  cbn [stop_durations].
  apply repeat_Forall, stop_duration_nonneg, Hdur.
Qed.

Hypothesis Hdecl : RailNetwork.endpoints_declared net.

(** After construction, and whatever the clock shows, [update] returns. *)
Lemma update_total (c : Q) (frame : Z) :
  exists (self' : t) (m : option (Q * Q)),
    update (set_current_time self c) frame = Ok (self', m).
Proof using Hinit Hdecl.
  pose proof (init_travel_frames _ _ _ _ Hinit) as Htf.
  apply init_inv in Hinit as (_ & pos & Hpos & ->).
  set (s := set_current_time _ c).
  destruct (update_loop_total s _ _ _ Htf eq_refl eq_refl frame (connections s) 0 0)
    as [[self' m] H].
  - simpl. lia.
  - unfold RailNetwork.endpoints_declared in Hdecl.
    eapply Forall_impl; [exact Hdecl|].
    intros conn [Hs He]. simpl.
    destruct (pos_declared net pos _ Hpos Hs) as (cs & _ & _ & ->).
    destruct (pos_declared net pos _ Hpos He) as (ce & _ & _ & ->).
    split; eexists; reflexivity.
  - exists self', m. exact H.
Qed.

Lemma render_total (frames : list Z) :
  forall c : Q,
    exists (c' : Q) (markers : list (option (Q * Q))),
      render (set_current_time self c) frames = Ok (set_current_time self c', markers).
Proof using Hinit Hdecl.
  induction frames as [|frame frames IH]; intros c.
  - exists c, []. reflexivity.
  - destruct (update_total c frame) as (self' & m & Hupd).
    pose proof (update_frame _ _ _ _ Hupd) as Hself'.
    rewrite set_current_time_idem in Hself'.
    destruct (IH (current_time self')) as (c' & markers & Hrender).
    exists c', (m :: markers). cbn [render].
    rewrite Hupd, Ok_bind. cbn beta iota. rewrite Hself', Hrender. reflexivity.
Qed.

Lemma clock_trace_length (frames : list Z) :
  forall c : Q, length (clock_trace (set_current_time self c) frames) = length frames.
Proof using Hinit Hdecl.
  induction frames as [|frame frames IH]; intros c; [reflexivity|].
  destruct (update_total c frame) as (self' & m & Hupd).
  pose proof (update_frame _ _ _ _ Hupd) as Hself'.
  rewrite set_current_time_idem in Hself'.
  cbn [clock_trace]. rewrite Hupd. cbn [length]. rewrite Hself', IH. reflexivity.
Qed.

End Runs.

(** C6.  After construction the clock shows 06:00, and when no duration
    is negative (in particular when all are positive) the clock never goes
    back along successive calls of [update], whatever the frames: the
    values it takes, from the initial one on, are nondecreasing.  This holds
    for the frames 0, 1, ..., [total_frames - 1] in particular; when the
    endpoints are declared, no call raises, so that the trace has one value
    per frame. *)
Theorem clock_monotone (net : RailNetwork.t) (show_live : bool) (D : Z)
    (self : RailNetworkVisualizer.t) :
  Forall (fun c => 0 <= Connection.duration c) (RailNetwork.connections net) ->
  RailNetworkVisualizer.init net show_live D = Ok self ->
  RailNetworkVisualizer.current_time self = six_o_clock
  /\ six_o_clock == 6
  /\ (forall frames : list Z,
        nondecreasing
          (RailNetworkVisualizer.current_time self
           :: RailNetworkVisualizer.clock_trace self frames))
  /\ nondecreasing
       (RailNetworkVisualizer.current_time self
        :: RailNetworkVisualizer.clock_trace self
             (RailNetworkVisualizer.range (RailNetworkVisualizer.total_frames self)))
  /\ (RailNetwork.endpoints_declared net ->
      forall frames : list Z,
        length (RailNetworkVisualizer.clock_trace self frames) = length frames).
Proof.
  intros Hdur Hinit.
  assert (Hmono : forall frames : list Z,
             nondecreasing
               (RailNetworkVisualizer.current_time self
                :: RailNetworkVisualizer.clock_trace self frames)).
  { intros frames. apply clock_trace_nondecreasing.
    - rewrite (init_connections net show_live D self Hinit). exact Hdur.
    - apply (init_stop_durations_nonneg net show_live D self Hinit Hdur). }
  split; [apply (init_current_time net show_live D self Hinit)|].
  split; [reflexivity|]. split; [exact Hmono|]. split; [apply Hmono|].
  intros Hdecl frames.
  rewrite <- (set_current_time_same self).
  apply (clock_trace_length net show_live D self Hinit Hdecl).
Qed.

(** The two-city scenario with a video of one second: ten frames, ten
    values of the clock after 06:00, none below its predecessor. *)
Lemma clock_monotone_witness :
  RailNetworkVisualizer.current_time (visualizer_for two_city_data 1) == 6
  /\ nondecreasing
       (RailNetworkVisualizer.current_time (visualizer_for two_city_data 1)
        :: RailNetworkVisualizer.clock_trace (visualizer_for two_city_data 1)
             (RailNetworkVisualizer.range 10))
  /\ length (RailNetworkVisualizer.clock_trace (visualizer_for two_city_data 1)
               (RailNetworkVisualizer.range 10)) = 10%nat.
Proof.
  destruct (clock_monotone (load two_city_data) false 1 (visualizer_for two_city_data 1))
    as (Hstart & Hsix & _ & Hmono & Hlen).
  - repeat constructor; vm_compute; discriminate.
  - vm_compute. reflexivity.
  - split; [rewrite Hstart; exact Hsix|]. split; [exact Hmono|].
    apply Hlen.
    apply (bool_decide_unpack _); vm_compute; exact I.
Defined.

(** C10.  In a network with at least one connection and all endpoints
    declared: after any two sequences of
    earlier calls of [update], both of which return, the call [update f]
    returns in both runs and plots the same marker (or none in both); the
    clock moves by the same amount in both, on top of what the earlier calls
    have left, and so is the one thing that the earlier calls change. *)
Theorem marker_independent_of_history (net : RailNetwork.t) (show_live : bool) (D : Z)
    (self : RailNetworkVisualizer.t) (before1 before2 : list Z) (f : Z) :
  RailNetwork.endpoints_declared net ->
  RailNetworkVisualizer.init net show_live D = Ok self ->
  exists (self1 self2 self1' self2' : RailNetworkVisualizer.t)
         (markers1 markers2 : list (option (Q * Q))) (marker : option (Q * Q)),
    RailNetworkVisualizer.render self before1 = Ok (self1, markers1)
    /\ RailNetworkVisualizer.render self before2 = Ok (self2, markers2)
    /\ RailNetworkVisualizer.update self1 f = Ok (self1', marker)
    /\ RailNetworkVisualizer.update self2 f = Ok (self2', marker)
    /\ RailNetworkVisualizer.current_time self1'
       - RailNetworkVisualizer.current_time self1
       == RailNetworkVisualizer.current_time self2'
          - RailNetworkVisualizer.current_time self2
    /\ self1 = RailNetworkVisualizer.set_current_time self
                 (RailNetworkVisualizer.current_time self1)
    /\ self2 = RailNetworkVisualizer.set_current_time self
                 (RailNetworkVisualizer.current_time self2).
Proof.
  intros Hdecl Hinit.
  destruct (render_total net show_live D self Hinit Hdecl before1
              (RailNetworkVisualizer.current_time self)) as (c1 & ms1 & Hr1).
  destruct (render_total net show_live D self Hinit Hdecl before2
              (RailNetworkVisualizer.current_time self)) as (c2 & ms2 & Hr2).
  rewrite set_current_time_same in Hr1, Hr2.
  destruct (update_total net show_live D self Hinit Hdecl
              (RailNetworkVisualizer.current_time self) f) as (self' & m & Hupd).
  rewrite set_current_time_same in Hupd.
  destruct (update_loop_set_clock self f c1 _ _ _ _ _ Hupd) as (s1' & Hu1 & Hd1).
  destruct (update_loop_set_clock self f c2 _ _ _ _ _ Hupd) as (s2' & Hu2 & Hd2).
  exists (RailNetworkVisualizer.set_current_time self c1),
    (RailNetworkVisualizer.set_current_time self c2), s1', s2', ms1, ms2, m.
  split; [exact Hr1|]. split; [exact Hr2|].
  split; [exact Hu1|]. split; [exact Hu2|].
  split; [|split; reflexivity].
  cbn [RailNetworkVisualizer.current_time RailNetworkVisualizer.set_current_time].
  rewrite Hd1, Hd2. reflexivity.
Qed.

(** The two-city scenario: frame 50 after no call and after the calls for
    the frames 0, 1 and 2 gives the same marker, while the clocks differ. *)
Lemma marker_independent_of_history_witness :
  exists (self1 self2 self1' self2' : RailNetworkVisualizer.t)
         (markers1 markers2 : list (option (Q * Q))) (marker : option (Q * Q)),
    RailNetworkVisualizer.render (visualizer_for two_city_data 10) []
    = Ok (self1, markers1)
    /\ RailNetworkVisualizer.render (visualizer_for two_city_data 10) [0; 1; 2]%Z
       = Ok (self2, markers2)
    /\ RailNetworkVisualizer.update self1 50 = Ok (self1', marker)
    /\ RailNetworkVisualizer.update self2 50 = Ok (self2', marker)
    /\ ~ RailNetworkVisualizer.current_time self1
         == RailNetworkVisualizer.current_time self2.
Proof.
  destruct (marker_independent_of_history (load two_city_data) false 10
              (visualizer_for two_city_data 10) [] [0; 1; 2]%Z 50)
    as (self1 & self2 & self1' & self2' & ms1 & ms2 & m
        & Hr1 & Hr2 & Hu1 & Hu2 & _ & _ & _).
  - apply (bool_decide_unpack _); vm_compute; exact I.
  - vm_compute. reflexivity.
  - exists self1, self2, self1', self2', ms1, ms2, m.
    split; [exact Hr1|]. split; [exact Hr2|].
    split; [exact Hu1|]. split; [exact Hu2|].
    vm_compute in Hr1. injection Hr1 as <- _.
    vm_compute in Hr2. injection Hr2 as <- _.
    intros H. vm_compute in H. discriminate.
Defined.

(** ** The derived graph *)

Section Graph.

Lemma has_edge_nbrs (g : nx.Graph) (u v : string) :
  nx.has_edge g u v = bool_decide (is_Some (nbrs g u !! v)).
Proof.
  unfold nx.has_edge, nbrs. destruct (nx.adj g !! u) as [m|]; simpl; [reflexivity|].
  rewrite lookup_empty. symmetry. apply bool_decide_eq_false. apply is_Some_None.
Qed.

Lemma add_node_nodes (n : string) (g : nx.Graph) :
  nx.nodes (nx.add_node n g) = {[n]} ∪ nx.nodes g.
Proof.
  unfold nx.add_node, nx.nodes. destruct (nx.adj g !! n) as [m|] eqn:E; simpl.
  - apply elem_of_dom_2 in E. set_solver.
  - apply dom_insert_L.
Qed.

Lemma add_node_nbrs (n : string) (g : nx.Graph) (u : string) :
  nbrs (nx.add_node n g) u = nbrs g u.
Proof.
  unfold nx.add_node, nbrs. destruct (nx.adj g !! n) as [m|] eqn:E; simpl;
    [reflexivity|].
  rewrite lookup_insert. case_decide as Hu; [|reflexivity].
  subst u. rewrite E. reflexivity.
Qed.

Lemma add_edge_nodes (u v : string) (w : Q) (g : nx.Graph) :
  nx.nodes (nx.add_edge u v w g) = {[u; v]} ∪ nx.nodes g.
Proof.
  unfold nx.add_edge. unfold nx.nodes at 1. cbn [nx.adj].
  rewrite !dom_insert_L.
  change (dom (nx.adj (nx.add_node v (nx.add_node u g))))
    with (nx.nodes (nx.add_node v (nx.add_node u g))).
  rewrite !add_node_nodes. set_solver.
Qed.

Lemma add_edge_nbrs (u v : string) (w : Q) (g : nx.Graph) (a b : string) :
  nbrs (nx.add_edge u v w g) a !! b
  = if decide ((a = u /\ b = v) \/ (a = v /\ b = u)) then Some w else nbrs g a !! b.
Proof.
  unfold nx.add_edge. unfold nbrs at 1. cbn [nx.adj].
  set (g2 := nx.add_node v (nx.add_node u g)).
  assert (Hg2 : forall x, default ∅ (nx.adj g2 !! x) = nbrs g x).
  { intros x. change (default ∅ (nx.adj g2 !! x)) with (nbrs g2 x).
    unfold g2. rewrite !add_node_nbrs. reflexivity. }
  rewrite lookup_insert. case_decide as Hav.
  - (* [a] is [v] *)
    subst a. simpl. rewrite lookup_insert. case_decide as Hbu.
    + subst b. rewrite decide_True by (right; split; reflexivity). reflexivity.
    + rewrite lookup_insert. case_decide as Huv.
      * subst v. simpl. rewrite lookup_insert_ne by exact Hbu.
        rewrite decide_False by (intros [[_ ?]|[_ ?]]; congruence).
        rewrite Hg2. reflexivity.
      * rewrite decide_False by (intros [[? _]|[_ ?]]; congruence).
        rewrite Hg2. reflexivity.
  - rewrite lookup_insert. case_decide as Hau.
    + subst a. simpl. rewrite lookup_insert. case_decide as Hbv.
      * subst b. rewrite decide_True by (left; split; reflexivity). reflexivity.
      * rewrite decide_False by (intros [[_ ?]|[? _]]; congruence).
        rewrite Hg2. reflexivity.
    + rewrite decide_False by (intros [[? _]|[? _]]; congruence).
      rewrite Hg2. reflexivity.
Qed.

End Graph.

Section BuildGraph.

Lemma foldl_add_node_nodes (l : list City.t) (g : nx.Graph) :
  nx.nodes (foldl (fun g city => nx.add_node (City.name city) g) g l)
  = list_to_set (map City.name l) ∪ nx.nodes g.
Proof.
  revert g. induction l as [|city l IH]; intros g; simpl.
  - set_solver.
  - rewrite IH, add_node_nodes. set_solver.
Qed.

Lemma foldl_add_node_nbrs (l : list City.t) (g : nx.Graph) (u : string) :
  nbrs (foldl (fun g city => nx.add_node (City.name city) g) g l) u = nbrs g u.
Proof.
  revert g. induction l as [|city l IH]; intros g; simpl; [reflexivity|].
  rewrite IH, add_node_nbrs. reflexivity.
Qed.

Lemma foldl_add_edge_nodes (l : list Connection.t) (g : nx.Graph) :
  nx.nodes (foldl add_connection_edge g l)
  = list_to_set (map Connection.start_city l)
    ∪ list_to_set (map Connection.end_city l) ∪ nx.nodes g.
Proof.
  revert g. induction l as [|c l IH]; intros g; simpl.
  - set_solver.
  - rewrite IH. unfold add_connection_edge. rewrite add_edge_nodes. set_solver.
Qed.

Lemma foldl_add_edge_nbrs (l : list Connection.t) (g : nx.Graph) (a b : string) :
  is_Some (nbrs (foldl add_connection_edge g l) a !! b)
  <-> is_Some (nbrs g a !! b)
      \/ exists c, In c l
                   /\ ((Connection.start_city c = a /\ Connection.end_city c = b)
                       \/ (Connection.start_city c = b /\ Connection.end_city c = a)).
Proof.
  revert g. induction l as [|c l IH]; intros g; simpl.
  - split; [intros H; left; exact H|].
    intros [H|(c & [] & _)]. exact H.
  - rewrite IH. unfold add_connection_edge. rewrite add_edge_nbrs.
    case_decide as Hc.
    + split.
      * intros _. right. exists c. split; [left; reflexivity|].
        destruct Hc as [[-> ->]|[-> ->]]; [left|right]; split; reflexivity.
      * intros _. left. eexists. reflexivity.
    + split.
      * intros [H|(c' & Hin & H)]; [left; exact H|].
        right. exists c'. split; [right; exact Hin|exact H].
      * intros [H|(c' & [<-|Hin] & H)].
        -- left. exact H.
        -- exfalso. apply Hc.
           destruct H as [[<- <-]|[<- <-]]; [left|right]; split; reflexivity.
        -- right. exists c'. split; assumption.
Qed.

End BuildGraph.

Section RoundTrip.

Lemma load_from_json_graph (data : json_data) (net : RailNetwork.t) :
  RailNetwork.graph (RailNetwork.load_from_json data net) = RailNetwork.graph net.
Proof.
  unfold RailNetwork.load_from_json.
  generalize (data_connections data) as conns.
  generalize (data_cities data) as cs. intros cs conns.
  transitivity (RailNetwork.graph
                  (foldl (fun self cd =>
                            RailNetwork.add_city
                              (City.mk (cd_name cd) (cd_coordinates cd)) self)
                     net cs)).
  - generalize (foldl (fun self cd =>
                         RailNetwork.add_city
                           (City.mk (cd_name cd) (cd_coordinates cd)) self)
                  net cs) as net'.
    induction conns as [|cd conns IH]; intros net'; [reflexivity|].
    simpl. rewrite IH. reflexivity.
  - revert net. induction cs as [|cd cs IH]; intros net; [reflexivity|].
    simpl. rewrite IH. reflexivity.
Qed.

Lemma dom_foldl_insert_city (l : list city_data) (m : gmap string City.t) :
  dom (foldl (fun m cd => <[cd_name cd := City.mk (cd_name cd) (cd_coordinates cd)]> m)
         m l)
  = list_to_set (map cd_name l) ∪ dom m.
Proof.
  revert m. induction l as [|cd l IH]; intros m; simpl.
  - set_solver.
  - rewrite IH, dom_insert_L. set_solver.
Qed.

Lemma names_of_values (m : gmap string City.t) :
  keys_are_names m ->
  list_to_set (map City.name (map_to_list m).*2) = dom m.
Proof.
  intros Hkeys. apply set_eq. intros n.
  rewrite elem_of_list_to_set, elem_of_dom. split.
  - intros H. apply list_elem_of_fmap in H as (city & -> & H).
    apply list_elem_of_fmap in H as ([k c] & -> & H). simpl.
    apply elem_of_map_to_list in H.
    rewrite (Hkeys k c H). eexists. exact H.
  - intros [city H]. apply list_elem_of_fmap. exists city.
    split; [symmetry; apply (Hkeys n city H)|].
    apply list_elem_of_fmap. exists (n, city). split; [reflexivity|].
    apply elem_of_map_to_list, H.
Qed.

Lemma load_cities_dom (data : json_data) :
  dom (RailNetwork.cities (load data)) = list_to_set (declared_names data).
Proof.
  unfold load. rewrite load_from_json_cities, dom_foldl_insert_city. simpl.
  unfold declared_names. set_solver.
Qed.

Lemma load_connections (data : json_data) :
  RailNetwork.connections (load data) = map connection_of (data_connections data).
Proof. unfold load. rewrite load_from_json_connections. reflexivity. Qed.

Lemma build_graph_nodes (data : json_data) :
  nx.nodes (RailNetwork.graph (RailNetwork.build_graph (load data)))
  = list_to_set (map cd_start_city (data_connections data))
    ∪ list_to_set (map cd_end_city (data_connections data))
    ∪ list_to_set (declared_names data).
Proof.
  unfold RailNetwork.build_graph. cbn [RailNetwork.graph].
  change (foldl _ ?g (RailNetwork.connections (load data)))
    with (foldl add_connection_edge g (RailNetwork.connections (load data))).
  rewrite foldl_add_edge_nodes, foldl_add_node_nodes.
  unfold RailNetwork.cities_values.
  rewrite names_of_values
    by (apply built_keys_are_names, RailNetwork.built_load_from_json,
          RailNetwork.built_init).
  rewrite load_cities_dom, load_connections.
  unfold load at 1. rewrite load_from_json_graph.
  rewrite !map_map. cbn [connection_of Connection.start_city Connection.end_city].
  unfold nx.nodes. simpl. set_solver.
Qed.

Lemma build_graph_has_edge (data : json_data) (u v : string) :
  nx.has_edge (RailNetwork.graph (RailNetwork.build_graph (load data))) u v = true
  <-> exists cd, In cd (data_connections data) /\ joins cd u v.
Proof.
  rewrite has_edge_nbrs, bool_decide_eq_true.
  unfold RailNetwork.build_graph. cbn [RailNetwork.graph].
  change (foldl _ ?g (RailNetwork.connections (load data)))
    with (foldl add_connection_edge g (RailNetwork.connections (load data))).
  rewrite foldl_add_edge_nbrs, foldl_add_node_nbrs, load_connections.
  unfold load at 1. rewrite load_from_json_graph.
  split.
  - intros [H|(c & Hin & H)].
    + unfold nbrs in H. simpl in H. rewrite lookup_empty in H. simpl in H.
      rewrite lookup_empty in H. destruct H; discriminate.
    + apply in_map_iff in Hin as (cd & <- & Hin). exists cd. split; assumption.
  - intros (cd & Hin & H). right. exists (connection_of cd).
    split; [apply in_map, Hin|exact H].
Qed.

End RoundTrip.

(** C9, for endpoints that are declared.  For the network loaded from a
    JSON description whose [N] cities have distinct names and whose
    connections run between declared cities, the graph that [build_graph]
    derives has exactly [N] nodes, the declared names; two names are joined
    by an edge exactly when some connection of the description joins them,
    in either direction and however often; and listing the connections in
    another order gives the same edges. *)
Theorem build_graph_round_trip (data : json_data) :
  NoDup (declared_names data) ->
  Forall (fun cd => In (cd_start_city cd) (declared_names data)
                    /\ In (cd_end_city cd) (declared_names data))
    (data_connections data) ->
  let g := RailNetwork.graph (RailNetwork.build_graph (load data)) in
  nx.number_of_nodes g = length (data_cities data)
  /\ (forall n : string, n ∈ nx.nodes g <-> In n (declared_names data))
  /\ (forall u v : string,
        nx.has_edge g u v = true
        <-> exists cd, In cd (data_connections data) /\ joins cd u v)
  /\ (forall connections' : list connection_data,
        Permutation connections' (data_connections data) ->
        forall u v : string,
          nx.has_edge
            (RailNetwork.graph
               (RailNetwork.build_graph
                  (load (mk_json_data (data_cities data) connections')))) u v
          = nx.has_edge g u v).
Proof.
  intros Hnodup Hdecl g.
  assert (Hnodes : nx.nodes g = list_to_set (declared_names data)).
  { subst g. rewrite build_graph_nodes.
    assert (Hs : list_to_set (map cd_start_city (data_connections data))
                 ⊆@{gset string} list_to_set (declared_names data)).
    { intros n Hn. apply elem_of_list_to_set, list_elem_of_fmap in Hn as (cd & -> & Hin).
      rewrite Forall_forall in Hdecl.
      apply elem_of_list_to_set, list_elem_of_In, (Hdecl cd Hin). }
    assert (He : list_to_set (map cd_end_city (data_connections data))
                 ⊆@{gset string} list_to_set (declared_names data)).
    { intros n Hn. apply elem_of_list_to_set, list_elem_of_fmap in Hn as (cd & -> & Hin).
      rewrite Forall_forall in Hdecl.
      apply elem_of_list_to_set, list_elem_of_In, (Hdecl cd Hin). }
    set_solver. }
  split; [|split; [|split]].
  - unfold nx.number_of_nodes. rewrite Hnodes.
    rewrite size_list_to_set by exact Hnodup.
    unfold declared_names. apply length_map.
  - intros n. rewrite Hnodes, elem_of_list_to_set. apply list_elem_of_In.
  - intros u v. apply build_graph_has_edge.
  - intros connections' Hperm u v.
    apply eq_true_iff_eq. subst g. rewrite !build_graph_has_edge. simpl.
    split; intros (cd & Hin & H); exists cd; (split; [|exact H]).
    + apply (Permutation_in _ Hperm), Hin.
    + apply (Permutation_in _ (Permutation_sym Hperm)), Hin.
Qed.

(** The triangle: three cities, three nodes, and the edge between "A" and
    "C", declared from "C" to "A", found from "A". *)
Lemma build_graph_round_trip_witness :
  nx.number_of_nodes (RailNetwork.graph (RailNetwork.build_graph (load triangle_data)))
  = 3%nat
  /\ nx.has_edge (RailNetwork.graph (RailNetwork.build_graph (load triangle_data)))
       "A" "C" = true.
Proof.
  destruct (build_graph_round_trip triangle_data) as (Hn & _ & Hedge & _).
  - repeat constructor; vm_compute; intros H; inversion H; subst;
      repeat match goal with
             | H : _ ∈ _ |- _ => inversion H; clear H; subst
             end.
  - repeat constructor; vm_compute; tauto.
  - split; [exact Hn|]. apply Hedge.
    exists (mk_connection_data "C" "A" 2). split.
    + right. right. left. reflexivity.
    + right. split; reflexivity.
Defined.

(** C9 as stated fails when a connection names a city that is not
    declared: [add_edge] makes a node of it.  One declared city "A" and a
    connection from "A" to "B" give a graph of two nodes. *)
Lemma build_graph_round_trip_counterexample :
  NoDup (declared_names dangling_data)
  /\ length (data_cities dangling_data) = 1%nat
  /\ nx.number_of_nodes
       (RailNetwork.graph (RailNetwork.build_graph (load dangling_data))) = 2%nat.
Proof.
  split; [|split; reflexivity].
  apply NoDup_singleton.
Qed.

(** * Further properties of the code *)

(** ** Reaching a connection *)

Section Reach.

Import RailNetworkVisualizer.

Variable self : t.
Variables (tf sf : Z) (sd : Q).
Hypothesis Htf : travel_frames self = Ok tf.
Hypothesis Hsd : stop_durations self = repeat sd (length (connections self)).
Hypothesis Hsf : sf = Py.int (Py.fmul sd 10).


End Reach.

(** ** The object after construction, whatever its clock shows *)

Lemma init_ready (net : RailNetwork.t) (show_live : bool) (D : Z)
    (self : RailNetworkVisualizer.t) (c : Q) :
  RailNetworkVisualizer.init net show_live D = Ok self ->
  exists sd : Q,
    sd = stop_duration_of net
    /\ RailNetwork.connections net <> []
    /\ RailNetworkVisualizer.connections (RailNetworkVisualizer.set_current_time self c)
       = RailNetwork.connections net
    /\ RailNetworkVisualizer.travel_frames (RailNetworkVisualizer.set_current_time self c)
       = Ok (D * 10 / Z.of_nat (length (RailNetwork.connections net)))%Z
    /\ RailNetworkVisualizer.stop_durations (RailNetworkVisualizer.set_current_time self c)
       = repeat sd
           (length (RailNetworkVisualizer.connections
                      (RailNetworkVisualizer.set_current_time self c)))
    /\ RailNetworkVisualizer.build_pos net
       = Ok (RailNetworkVisualizer.pos (RailNetworkVisualizer.set_current_time self c)).
Proof.
  intros Hinit.
  pose proof (init_travel_frames _ _ _ _ Hinit) as Htf.
  apply init_inv in Hinit as (Hne & pos & Hpos & ->).
  eexists. split; [reflexivity|]. split; [exact Hne|].
  split; [reflexivity|]. split; [exact Htf|]. split; [reflexivity|exact Hpos].
Qed.






(** X6.  A flat box.  [normalize_coordinates] raises exactly when the box
    has no width or no height, that is when [max_x] equals [min_x] or
    [max_y] equals [min_y]; what it raises is [ZeroDivisionError], and the
    coordinates of the city play no part in it. *)
Theorem normalize_coordinates_flat_box (city : City.t) (min_x max_x min_y max_y : Q) :
  (City.normalize_coordinates city min_x max_x min_y max_y = Raise ZeroDivisionError
   <-> (max_x == min_x \/ max_y == min_y))
  /\ (forall e : exn,
        City.normalize_coordinates city min_x max_x min_y max_y = Raise e ->
        e = ZeroDivisionError)
  /\ ((exists p, City.normalize_coordinates city min_x max_x min_y max_y = Ok p)
      <-> (~ max_x == min_x /\ ~ max_y == min_y)).
Proof.
  unfold City.normalize_coordinates, Py.truediv.
  destruct (Qeq_bool (max_x - min_x) 0) eqn:Ex;
    [apply Qeq_bool_iff in Ex|apply Qeq_bool_neq in Ex];
    (destruct (Qeq_bool (max_y - min_y) 0) eqn:Ey;
     [apply Qeq_bool_iff in Ey|apply Qeq_bool_neq in Ey]); simpl.
  - split; [split; [intros _; left; lra|reflexivity]|].
    split; [intros e [= <-]; reflexivity|].
    split; [intros [p H]; discriminate|intros [H _]; exfalso; apply H; lra].
  - split; [split; [intros _; left; lra|reflexivity]|].
    split; [intros e [= <-]; reflexivity|].
    split; [intros [p H]; discriminate|intros [H _]; exfalso; apply H; lra].
  - split; [split; [intros _; right; lra|reflexivity]|].
    split; [intros e [= <-]; reflexivity|].
    split; [intros [p H]; discriminate|intros [_ H]; exfalso; apply H; lra].
  - split; [split; [discriminate|intros [H|H]; exfalso; [apply Ex|apply Ey]; lra]|].
    split; [discriminate|].
    split; [intros _; split; intros H; [apply Ex|apply Ey]; lra|].
    intros _. eexists. reflexivity.
Qed.

(** X7.  A box given the wrong way round.  When the two bounds of an axis
    are exchanged, the normalised coordinate on that axis changes its sign:
    the picture is mirrored, and nothing is raised. *)
Theorem normalize_coordinates_mirrored (city : City.t) (min_x max_x min_y max_y : Q) :
  ~ max_x == min_x -> ~ max_y == min_y ->
  exists p p' : Q * Q,
    City.normalize_coordinates city min_x max_x min_y max_y = Ok p
    /\ City.normalize_coordinates city max_x min_x max_y min_y = Ok p'
    /\ fst p' == - fst p
    /\ snd p' == - snd p.
Proof.
  intros Hx Hy. unfold City.normalize_coordinates.
  rewrite (truediv_Ok _ (max_x - min_x)) by lra.
  rewrite (truediv_Ok _ (min_x - max_x)) by lra.
  rewrite !Ok_bind.
  rewrite (truediv_Ok _ (max_y - min_y)) by lra.
  rewrite (truediv_Ok _ (min_y - max_y)) by lra.
  rewrite !Ok_bind.
  eexists _, _. split; [reflexivity|]. split; [reflexivity|].
  split; simpl; field; lra.
Qed.

(** The default box taken from east to west and from north to south: the
    south-west corner (8, 54) goes to (1, 1). *)
Lemma normalize_coordinates_mirrored_witness :
  exists p' : Q * Q,
    City.normalize_coordinates (City.mk "A" (8, 54)) 13 8 58 54 = Ok p'
    /\ p' =p= (1, 1).
Proof.
  destruct (normalize_coordinates_mirrored (City.mk "A" (8, 54)) 8 13 54 58)
    as (p & p' & Hp & Hp' & Hx & Hy).
  - intros H. vm_compute in H. discriminate.
  - intros H. vm_compute in H. discriminate.
  - exists p'. split; [exact Hp'|].
    vm_compute in Hp. injection Hp as <-.
    split; [rewrite Hx|rewrite Hy]; reflexivity.
Defined.

(** ** Loading descriptions *)

Lemma RailNetwork_eq (a b : RailNetwork.t) :
  RailNetwork.cities a = RailNetwork.cities b ->
  RailNetwork.connections a = RailNetwork.connections b ->
  RailNetwork.graph a = RailNetwork.graph b ->
  a = b.
Proof. destruct a, b. simpl. intros -> -> ->. reflexivity. Qed.

(** X8.  Loading in two steps.  Loading one description and then another
    into the same network gives the network that loading both at once
    gives, the cities and the connections of the second description coming
    after those of the first. *)
Theorem load_from_json_twice (data1 data2 : json_data) (net : RailNetwork.t) :
  RailNetwork.load_from_json data2 (RailNetwork.load_from_json data1 net)
  = RailNetwork.load_from_json
      (mk_json_data (data_cities data1 ++ data_cities data2)
         (data_connections data1 ++ data_connections data2))
      net.
Proof.
  apply RailNetwork_eq.
  - rewrite !load_from_json_cities. simpl. rewrite foldl_app. reflexivity.
  - rewrite !load_from_json_connections. simpl.
    rewrite map_app, app_assoc. reflexivity.
  - rewrite !load_from_json_graph. reflexivity.
Qed.

Lemma foldl_insert_city_other (l : list city_data) (m : gmap string City.t) (n : string) :
  Forall (fun cd => cd_name cd <> n) l ->
  foldl (fun m cd => <[cd_name cd := City.mk (cd_name cd) (cd_coordinates cd)]> m) m l !! n
  = m !! n.
Proof.
  revert m. induction l as [|cd l IH]; intros m Hn; [reflexivity|].
  apply Forall_cons in Hn as [Hcd Hn]. simpl.
  rewrite IH by exact Hn. apply lookup_insert_ne. exact Hcd.
Qed.

(** X9.  The last declaration of a name wins, and connections are kept as
    they come.  When a description declares a city and no later entry of
    the description has the same name, the loaded network holds that city
    under the name, whatever was declared under it before, in the
    description or in the network; a name that the description does not
    declare keeps what the network had; the connections of the description
    are appended to those of the network in their order, repetitions
    included. *)
Theorem load_from_json_last_wins (data : json_data) (net : RailNetwork.t)
    (before after : list city_data) (cd : city_data) :
  data_cities data = before ++ cd :: after ->
  Forall (fun cd' => cd_name cd' <> cd_name cd) after ->
  RailNetwork.cities (RailNetwork.load_from_json data net) !! cd_name cd
  = Some (City.mk (cd_name cd) (cd_coordinates cd))
  /\ (forall n : string,
        Forall (fun cd' => cd_name cd' <> n) (data_cities data) ->
        RailNetwork.cities (RailNetwork.load_from_json data net) !! n
        = RailNetwork.cities net !! n)
  /\ RailNetwork.connections (RailNetwork.load_from_json data net)
     = RailNetwork.connections net ++ map connection_of (data_connections data).
Proof.
  intros Hsplit Hafter. split; [|split].
  - rewrite load_from_json_cities, Hsplit, foldl_app. simpl.
    rewrite foldl_insert_city_other by exact Hafter.
    apply lookup_insert_eq.
  - intros n Hn. rewrite load_from_json_cities.
    apply foldl_insert_city_other, Hn.
  - apply load_from_json_connections.
Qed.

(** "A" is declared at (8, 54) and again at (10, 56): the network holds
    the second, and both connections between "A" and "B". *)
Lemma load_from_json_last_wins_witness :
  RailNetwork.cities (load repeated_data) !! "A" = Some (City.mk "A" (10, 56))
  /\ length (RailNetwork.connections (load repeated_data)) = 2%nat.
Proof.
  destruct (load_from_json_last_wins repeated_data RailNetwork.init
              [mk_city_data "A" (8, 54); mk_city_data "B" (13, 58)] []
              (mk_city_data "A" (10, 56)))
    as (Hcity & _ & Hconns).
  - reflexivity.
  - constructor.
  - split; [exact Hcity|]. unfold load. rewrite Hconns. reflexivity.
Defined.

(** ** The graph *)

Section GraphWeights.

Lemma foldl_add_edge_weight (l : list Connection.t) :
  forall (g : nx.Graph) (a b : string),
    nbrs (foldl add_connection_edge g l) a !! b
    = match last_weight l a b with
      | Some w => Some w
      | None => nbrs g a !! b
      end.
Proof.
  induction l as [|c l IH]; intros g a b; [reflexivity|].
  simpl. rewrite IH. destruct (last_weight l a b) as [w|]; [reflexivity|].
  unfold add_connection_edge. rewrite add_edge_nbrs.
  rewrite (decide_ext _ (connects c a b)); [|unfold connects; intuition congruence].
  destruct (decide (connects c a b)); reflexivity.
Qed.

Lemma adj_lookup (g : nx.Graph) (a : string) :
  nx.adj g !! a = if decide (a ∈ nx.nodes g) then Some (nbrs g a) else None.
Proof.
  unfold nx.nodes, nbrs. case_decide as H.
  - apply elem_of_dom in H as [m ->]. reflexivity.
  - apply not_elem_of_dom in H. exact H.
Qed.

Lemma Graph_eq (g1 g2 : nx.Graph) :
  nx.nodes g1 = nx.nodes g2 ->
  (forall a b, nbrs g1 a !! b = nbrs g2 a !! b) ->
  g1 = g2.
Proof.
  intros Hnodes Hnbrs. destruct g1 as [a1], g2 as [a2]. f_equal.
  apply map_eq. intros a.
  pose proof (adj_lookup (nx.mkGraph a1) a) as H1.
  pose proof (adj_lookup (nx.mkGraph a2) a) as H2.
  simpl in H1, H2. rewrite H1, H2, Hnodes.
  case_decide; [|reflexivity]. f_equal. apply map_eq. intros b. apply Hnbrs.
Qed.

Lemma build_graph_nodes_gen (net : RailNetwork.t) :
  nx.nodes (RailNetwork.graph (RailNetwork.build_graph net))
  = list_to_set (map Connection.start_city (RailNetwork.connections net))
    ∪ list_to_set (map Connection.end_city (RailNetwork.connections net))
    ∪ (list_to_set (map City.name (RailNetwork.cities_values net))
       ∪ nx.nodes (RailNetwork.graph net)).
Proof.
  unfold RailNetwork.build_graph. cbn [RailNetwork.graph].
  change (foldl _ ?g (RailNetwork.connections net))
    with (foldl add_connection_edge g (RailNetwork.connections net)).
  rewrite foldl_add_edge_nodes, foldl_add_node_nodes. reflexivity.
Qed.

Lemma build_graph_nbrs (net : RailNetwork.t) (a b : string) :
  nbrs (RailNetwork.graph (RailNetwork.build_graph net)) a !! b
  = match last_weight (RailNetwork.connections net) a b with
    | Some w => Some w
    | None => nbrs (RailNetwork.graph net) a !! b
    end.
Proof.
  unfold RailNetwork.build_graph. cbn [RailNetwork.graph].
  change (foldl _ ?g (RailNetwork.connections net))
    with (foldl add_connection_edge g (RailNetwork.connections net)).
  rewrite foldl_add_edge_weight, foldl_add_node_nbrs. reflexivity.
Qed.

End GraphWeights.

Section GraphInvariants.

Lemma connects_sym (c : Connection.t) (u v : string) : connects c u v <-> connects c v u.
Proof. unfold connects. tauto. Qed.

Lemma last_weight_sym (l : list Connection.t) (u v : string) :
  last_weight l u v = last_weight l v u.
Proof.
  induction l as [|c l IH]; [reflexivity|]. simpl. rewrite IH.
  destruct (last_weight l v u); [reflexivity|].
  apply decide_ext, connects_sym.
Qed.

Lemma last_weight_none (l : list Connection.t) (u v : string) :
  Forall (fun c => ~ connects c u v) l -> last_weight l u v = None.
Proof.
  induction 1 as [|c l Hc _ IH]; [reflexivity|]. simpl. rewrite IH.
  apply decide_False. exact Hc.
Qed.

Lemma last_weight_split (before after : list Connection.t) (c : Connection.t)
    (u v : string) :
  connects c u v ->
  Forall (fun c' => ~ connects c' u v) after ->
  last_weight (before ++ c :: after) u v = Some (Connection.duration c).
Proof.
  intros Hc Hafter. induction before as [|c0 before IH]; simpl.
  - rewrite (last_weight_none _ _ _ Hafter). apply decide_True. exact Hc.
  - rewrite IH. reflexivity.
Qed.

Lemma last_weight_Some (l : list Connection.t) (u v : string) (w : Q) :
  last_weight l u v = Some w -> exists c, In c l /\ connects c u v.
Proof.
  induction l as [|c l IH]; [discriminate|]. simpl.
  destruct (last_weight l u v) as [w'|].
  - intros H. destruct (IH H) as (c' & Hin & Hc').
    exists c'. split; [right; exact Hin|exact Hc'].
  - case_decide as Hc; [|discriminate].
    intros _. exists c. split; [left; reflexivity|exact Hc].
Qed.

Lemma endpoints_are_nodes (net : RailNetwork.t) (c : Connection.t) (u v : string) :
  In c (RailNetwork.connections net) -> connects c u v ->
  u ∈ nx.nodes (RailNetwork.graph (RailNetwork.build_graph net))
  /\ v ∈ nx.nodes (RailNetwork.graph (RailNetwork.build_graph net)).
Proof.
  intros Hin Hc. rewrite build_graph_nodes_gen.
  assert (Hs : Connection.start_city c
               ∈@{gset string}
               list_to_set (map Connection.start_city (RailNetwork.connections net))).
  { apply elem_of_list_to_set, list_elem_of_fmap. exists c.
    split; [reflexivity|apply list_elem_of_In, Hin]. }
  assert (He : Connection.end_city c
               ∈@{gset string}
               list_to_set (map Connection.end_city (RailNetwork.connections net))).
  { apply elem_of_list_to_set, list_elem_of_fmap. exists c.
    split; [reflexivity|apply list_elem_of_In, Hin]. }
  destruct Hc as [[<- <-]|[<- <-]]; split; set_solver.
Qed.

End GraphInvariants.

(** X10.  The graph is undirected.  In every network that the methods of
    the class have built, however often and at which points [build_graph]
    was called, the graph stores each edge under both of its endpoints with
    the same weight, and both endpoints of every edge are nodes. *)
Theorem built_graph_undirected (net : RailNetwork.t) :
  RailNetwork.built net ->
  forall u v : string,
    edge_weight (RailNetwork.graph net) u v = edge_weight (RailNetwork.graph net) v u
    /\ (is_Some (edge_weight (RailNetwork.graph net) u v) ->
        u ∈ nx.nodes (RailNetwork.graph net) /\ v ∈ nx.nodes (RailNetwork.graph net)).
Proof.
  induction 1 as [|city self _ IH|connection self _ IH|self _ IH|data self _ IH];
    intros u v.
  - unfold edge_weight, nbrs. simpl. rewrite !lookup_empty. simpl.
    rewrite !lookup_empty. split; [reflexivity|]. intros [w Hw]. discriminate.
  - apply IH.
  - apply IH.
  - unfold edge_weight. rewrite !build_graph_nbrs.
    rewrite (last_weight_sym _ v u).
    destruct (last_weight (RailNetwork.connections self) u v) as [w|] eqn:Hw.
    + split; [reflexivity|]. intros _.
      apply last_weight_Some in Hw as (c & Hin & Hc).
      apply (endpoints_are_nodes self c u v Hin Hc).
    + destruct (IH u v) as [Hsym Hnodes]. split; [exact Hsym|].
      intros Hsome. destruct (Hnodes Hsome) as [Hu Hv].
      rewrite build_graph_nodes_gen. split; set_solver.
  - rewrite load_from_json_graph. apply IH.
Qed.

(** The graph built for the triangle, then a further connection added
    and the graph built again: the edge declared from "C" to "A" is stored
    from "A" to "C" as well. *)
Lemma built_graph_undirected_witness :
  edge_weight
    (RailNetwork.graph
       (RailNetwork.build_graph
          (RailNetwork.add_connection (Connection.mk "A" "C" 5)
             (RailNetwork.build_graph (load triangle_data))))) "A" "C"
  = Some 5
  /\ edge_weight
       (RailNetwork.graph
          (RailNetwork.build_graph
             (RailNetwork.add_connection (Connection.mk "A" "C" 5)
                (RailNetwork.build_graph (load triangle_data))))) "C" "A"
     = Some 5.
Proof.
  destruct (built_graph_undirected
              (RailNetwork.build_graph
                 (RailNetwork.add_connection (Connection.mk "A" "C" 5)
                    (RailNetwork.build_graph (load triangle_data)))))
    with (u := "A"%string) (v := "C"%string) as [Hsym _].
  - apply RailNetwork.built_build_graph, RailNetwork.built_add_connection,
      RailNetwork.built_build_graph, RailNetwork.built_load_from_json,
      RailNetwork.built_init.
  - split; [vm_compute; reflexivity|]. rewrite <- Hsym. vm_compute. reflexivity.
Defined.

(** X11.  The weight of an edge is the duration of the last connection
    between its endpoints.  After [build_graph], when a connection runs
    between [u] and [v], in either direction, and no later connection of the
    network does, the edge between [u] and [v] carries the duration of that
    connection, seen from both sides, whatever earlier connections between
    the two cities said and whatever the graph held before; for a pair of
    names that no connection joins, the graph keeps what it held. *)
Theorem build_graph_edge_weight (net : RailNetwork.t)
    (before after : list Connection.t) (c : Connection.t) (u v : string) :
  RailNetwork.connections net = before ++ c :: after ->
  connects c u v ->
  Forall (fun c' => ~ connects c' u v) after ->
  edge_weight (RailNetwork.graph (RailNetwork.build_graph net)) u v
  = Some (Connection.duration c)
  /\ edge_weight (RailNetwork.graph (RailNetwork.build_graph net)) v u
     = Some (Connection.duration c)
  /\ (forall a b : string,
        Forall (fun c' => ~ connects c' a b) (RailNetwork.connections net) ->
        edge_weight (RailNetwork.graph (RailNetwork.build_graph net)) a b
        = edge_weight (RailNetwork.graph net) a b).
Proof.
  intros Hsplit Hc Hafter. unfold edge_weight. split; [|split].
  - rewrite build_graph_nbrs, Hsplit, (last_weight_split _ _ _ _ _ Hc Hafter).
    reflexivity.
  - rewrite build_graph_nbrs, last_weight_sym, Hsplit,
      (last_weight_split _ _ _ _ _ Hc Hafter).
    reflexivity.
  - intros a b Hnone. rewrite build_graph_nbrs, (last_weight_none _ _ _ Hnone).
    reflexivity.
Qed.

(** "A" and "B" are connected twice, for 1 hour from "A" and for 3 hours
    from "B": the one edge between them weighs 3. *)
Lemma build_graph_edge_weight_witness :
  edge_weight (RailNetwork.graph (RailNetwork.build_graph (load repeated_data))) "A" "B"
  = Some 3.
Proof.
  destruct (build_graph_edge_weight (load repeated_data)
              [Connection.mk "A" "B" 1] [] (Connection.mk "B" "A" 3) "A" "B")
    as (Hw & _ & _).
  - reflexivity.
  - right. split; reflexivity.
  - constructor.
  - exact Hw.
Defined.

(** X12.  Building the graph again changes nothing.  [build_graph] called
    on a network whose graph it has just built gives the same network: the
    same nodes, the same edges, the same weights. *)
Theorem build_graph_idempotent (net : RailNetwork.t) :
  RailNetwork.build_graph (RailNetwork.build_graph net) = RailNetwork.build_graph net.
Proof.
  apply RailNetwork_eq; [reflexivity|reflexivity|].
  apply Graph_eq.
  - rewrite (build_graph_nodes_gen (RailNetwork.build_graph net)).
    change (RailNetwork.connections (RailNetwork.build_graph net))
      with (RailNetwork.connections net).
    change (RailNetwork.cities_values (RailNetwork.build_graph net))
      with (RailNetwork.cities_values net).
    rewrite build_graph_nodes_gen. set_solver.
  - intros a b. rewrite (build_graph_nbrs (RailNetwork.build_graph net)).
    change (RailNetwork.connections (RailNetwork.build_graph net))
      with (RailNetwork.connections net).
    rewrite build_graph_nbrs.
    destruct (last_weight (RailNetwork.connections net) a b); reflexivity.
Qed.

(** ** Fewer frames than connections *)

Section NoTravel.

Import RailNetworkVisualizer.

Variable self : t.
Variables (tf sf : Z) (sd : Q).
Hypothesis Htf : travel_frames self = Ok tf.
Hypothesis Hsd : stop_durations self = repeat sd (length (connections self)).
Hypothesis Hsf : sf = Py.int (Py.fmul sd 10).

(** Without travel frames a marker is plotted in a stop range only. *)
Lemma update_loop_no_travel (frame : Z) (rest : list Connection.t) :
  (tf <= 0)%Z ->
  forall (idx : nat) (cum : Z) (self' : t) (marker : Q * Q),
    (idx + length rest <= length (connections self))%nat ->
    update_loop self frame idx cum rest = Ok (self', Some marker) ->
    exists conn,
      In conn rest
      /\ pos self !! Connection.end_city conn = Some marker
      /\ self' = set_current_time self (current_time self + timedelta_minutes (sd / 10)).
Proof using Htf Hsd Hsf.
  intros Htf0. induction rest as [|c rest IH]; intros idx cum self' marker Hlen H;
    [discriminate|].
  simpl in Hlen. cbn [update_loop] in H.
  rewrite Htf, Ok_bind, (stop_frames_lt self sf sd Hsd Hsf idx) in H by lia.
  rewrite Ok_bind in H.
  replace ((cum <=? frame)%Z && (frame <? cum + tf)%Z) with false in H.
  - destruct ((cum + tf <=? frame)%Z && (frame <? cum + tf + sf)%Z).
    + unfold Py.getitem in H.
      destruct (pos self !! Connection.end_city c) as [[x y]|] eqn:Ee; [|discriminate].
      rewrite Ok_bind, (stop_duration_lt self sd Hsd idx) in H by lia.
      rewrite Ok_bind in H. injection H as <- <-.
      exists c. split; [left; reflexivity|]. split; [exact Ee|reflexivity].
    + apply IH in H as (conn & Hin & H); [|lia].
      exists conn. split; [right; exact Hin|exact H].
  - symmetry. apply andb_false_iff.
    destruct (Z.leb_spec cum frame); [right; apply Z.ltb_ge; lia|left; reflexivity].
Qed.

End NoTravel.

(** X14.  Fewer frames than connections.  When [total_frames] is below
    the number of connections, every connection has zero travel frames (or
    fewer): no call of [update] interpolates.  Whenever a call plots a
    marker, the marker sits on the end city of one of the connections, and
    the clock has moved by the stop share only. *)
Theorem update_without_travel_frames (net : RailNetwork.t) (show_live : bool) (D : Z)
    (self self' : RailNetworkVisualizer.t) (c : Q) (f : Z) (marker : Q * Q) :
  RailNetworkVisualizer.init net show_live D = Ok self ->
  (D * 10 < Z.of_nat (length (RailNetwork.connections net)))%Z ->
  RailNetworkVisualizer.update (RailNetworkVisualizer.set_current_time self c) f
  = Ok (self', Some marker) ->
  exists (conn : Connection.t) (sd : Q),
    In conn (RailNetwork.connections net)
    /\ RailNetworkVisualizer.pos self !! Connection.end_city conn = Some marker
    /\ RailNetworkVisualizer.stop_durations self !! 0%nat = Some sd
    /\ self' = RailNetworkVisualizer.set_current_time self
                 (c + timedelta_minutes (sd / 10)).
Proof.
  intros Hinit Hfew Hupd.
  destruct (init_ready net show_live D self c Hinit)
    as (sd & Esd & Hne & Hconns & Htf & Hsd & Hpos).
  assert (Htf0 : (D * 10 / Z.of_nat (length (RailNetwork.connections net)) <= 0)%Z).
  { assert (Hn : (0 < Z.of_nat (length (RailNetwork.connections net)))%Z).
    { destruct (RailNetwork.connections net); [congruence|simpl; lia]. }
    assert (D * 10 / Z.of_nat (length (RailNetwork.connections net)) < 1)%Z; [|lia].
    apply Z.div_lt_upper_bound; lia. }
  unfold RailNetworkVisualizer.update in Hupd.
  destruct (update_loop_no_travel _ _ _ sd Htf Hsd eq_refl f _ Htf0 0%nat _ _ _
              (Nat.le_refl _) Hupd) as (conn & Hin & Hm & Hself).
  exists conn, sd. rewrite Hconns in Hin. split; [exact Hin|].
  split; [exact Hm|]. split; [|exact Hself].
  change (RailNetworkVisualizer.stop_durations self)
    with (RailNetworkVisualizer.stop_durations
            (RailNetworkVisualizer.set_current_time self c)).
  rewrite Hsd. apply lookup_repeat. rewrite Hconns.
  destruct (RailNetwork.connections net); [congruence|simpl; lia].
Qed.

(** The triangle with a video of zero seconds: no travel frame, two stop
    frames per connection; frame 0 shows the marker on "B", the end city of
    the first connection. *)
Lemma update_without_travel_frames_witness :
  exists self' : RailNetworkVisualizer.t,
    RailNetworkVisualizer.update (visualizer_for triangle_data 0) 0
    = Ok (self', Some (normalized (City.mk "B" (13, 58)))).
Proof.
  assert (Hupd : exists self' : RailNetworkVisualizer.t,
             RailNetworkVisualizer.update
               (RailNetworkVisualizer.set_current_time
                  (visualizer_for triangle_data 0) six_o_clock) 0
             = Ok (self', Some (normalized (City.mk "B" (13, 58)))))
    by (eexists; vm_compute; reflexivity).
  destruct Hupd as [self' Hupd].
  destruct (update_without_travel_frames (load triangle_data) false 0
              (visualizer_for triangle_data 0) self' six_o_clock 0
              (normalized (City.mk "B" (13, 58))))
    as (conn & sd & _ & _ & _ & Hself').
  - vm_compute. reflexivity.
  - simpl. lia.
  - exact Hupd.
  - exists self'. exact Hupd.
Defined.
